(** * Hydrogen atom orbital simulator: the density-to-geometry pipeline

    A shallow embedding of [main.cpp]: the validation of the quantum numbers,
    the dispatch over the ten supported orbitals, the grid sampler, the ten
    closed-form densities, the mapping of a density to a radius and a colour,
    the latitude/longitude tessellation of one sphere and the aggregation of
    all spheres into one vertex array and one index array.

    Numbers.
    - [int] values are integers of [Z] in the range of 32 bits; where the
      result of an operation can leave that range the two's-complement
      wrap-around is written out ([Int32]).  (The C++ standard leaves signed
      overflow undefined; the wrapped value is what the usual targets give.)
    - [GLfloat] values are modelled twice.  [Module Binary32] gives the
      arithmetic of the sampler and of the mapping (+, -, *, /, sqrt) its
      IEEE-754 single-precision meaning, with NaN and infinities, through
      [SpecFloat]; the functions of libm and the ten densities are
      parameters there.  Everywhere else a [GLfloat] is a real number of [R]
      and cosf, sinf, exp, sqrt, acos and pow are the real functions: rounding,
      overflow and NaN are outside that second model, which therefore says
      nothing of [theta_of] at r = 0 (the one cell where this happens is
      treated in [Binary32]).
    - the calls [pow(11,3)] and [cbrt(numSpheres)] are taken at their exact
      values. *)

From Stdlib Require Import String.
From Stdlib Require Import ZArith List Bool Lia.
From Stdlib Require Import Reals Lra.
From Stdlib Require Import Floats.SpecFloat.
Import ListNotations.

Local Open Scope Z_scope.

(** ** 32-bit integers *)

Module Int32.

Definition min_signed : Z := - 2 ^ 31.
Definition max_signed : Z := 2 ^ 31 - 1.

Definition in_range (z : Z) : Prop := min_signed <= z <= max_signed.

(** The representative of [z] modulo 2^32 in the signed range. *)
Definition wrap (z : Z) : Z := (z + 2 ^ 31) mod 2 ^ 32 - 2 ^ 31.

Definition add (a b : Z) : Z := wrap (a + b).
Definition mul (a b : Z) : Z := wrap (a * b).

(** [abs] of <cstdlib>: the negation of a negative argument, wrapped. *)
Definition abs (a : Z) : Z := if a <? 0 then wrap (- a) else a.

(** The conversion of an [int] to [GLuint] (32-bit unsigned). *)
Definition to_unsigned (z : Z) : Z := z mod 2 ^ 32.

End Int32.

(** ** Counted loops and vectors *)

(** The values taken by [i] in [for (int i = 0; i < n; ++i)]. *)
Definition upto (n : Z) : list Z := map Z.of_nat (seq 0 (Z.to_nat n)).

(** [v.at(i)] on a vector whose elements have the default [d]; the accesses
    of the program are shown to be within bounds where it matters. *)
Definition vec_at {A : Type} (d : A) (v : list A) (i : Z) : A :=
  nth (Z.to_nat i) v d.

(** [v.size()] *)
Definition size {A : Type} (v : list A) : Z := Z.of_nat (length v).

(** ** Constants of the program *)

Definition sectorCount : Z := 9.
Definition stackCount : Z := 9.
Definition NUM_VERTICES_PER_SPHERE : Z := 100.

(** [const int numSpheres = pow(11,3);] *)
Definition numSpheres : Z := 11 ^ 3.

(** The truncation to [int] of the cube root of a non-negative [n]: the
    largest [k] with [k^3 <= n], found by counting upwards. *)
Fixpoint cbrt_from (fuel : nat) (k n : Z) : Z :=
  match fuel with
  | O => k
  | S fuel' => if (k + 1) ^ 3 <=? n then cbrt_from fuel' (k + 1) n else k
  end.

Definition int_cbrt (n : Z) : Z := cbrt_from (Z.to_nat n) 0 n.

(** [int numSpheres_per_side = cbrt(numSpheres);] *)
Definition numSpheres_per_side : Z := int_cbrt numSpheres.

(** ** Validation of the quantum numbers and dispatch *)

(** The condition of the first [if] of [main]:
    [l+1>n || abs(ml)>abs(l) || l<0]. *)
Definition not_allowed (n l ml : Z) : bool :=
  (Int32.add l 1 >? n) || (Int32.abs ml >? Int32.abs l) || (l <? 0).

(** What the specification calls a physically invalid state. *)
Definition physically_invalid (n l ml : Z) : Prop :=
  l < 0 \/ l + 1 > n \/ Z.abs ml > Z.abs l.

(** The ten branches of the [if ... else if] chain, in the order of the
    source. *)
Inductive Orbital : Type :=
| O100 | O200 | O210 | O211 | O300 | O310 | O311 | O320 | O321 | O322.

Definition dispatch (n l ml : Z) : option Orbital :=
  if (n =? 1) && (l =? 0) && (ml =? 0) then Some O100
  else if (n =? 2) && (l =? 0) && (ml =? 0) then Some O200
  else if (n =? 2) && (l =? 1) && (ml =? 0) then Some O210
  else if (n =? 2) && (l =? 1) && ((ml =? 1) || (ml =? -1)) then Some O211
  else if (n =? 3) && (l =? 0) && (ml =? 0) then Some O300
  else if (n =? 3) && (l =? 1) && (ml =? 0) then Some O310
  else if (n =? 3) && (l =? 1) && ((ml =? 1) || (ml =? -1)) then Some O311
  else if (n =? 3) && (l =? 2) && (ml =? 0) then Some O320
  else if (n =? 3) && (l =? 2) && ((ml =? 1) || (ml =? -1)) then Some O321
  else if (n =? 3) && (l =? 2) && ((ml =? 2) || (ml =? -2)) then Some O322
  else None.

(** ** The index list of one sphere and the index array of all spheres *)

(** The body of the inner loop [for (j...; ++j, ++k1, ++k2)]: [k1] and [k2]
    are carried from one sector to the next, and the indices are pushed at
    the back of the vector.  (The loop also fills [lineIndices], which is
    never read.) *)
Fixpoint sector_loop (sectors : list Z) (i k1 k2 : Z) (vec : list Z)
  : list Z :=
  match sectors with
  | [] => vec
  | _ :: sectors' =>
      let vec1 := if negb (i =? 0)
                  then vec ++ [k1; k2; k1 + 1] else vec in
      let vec2 := if negb (i =? stackCount - 1)
                  then vec1 ++ [k1 + 1; k2; k2 + 1] else vec1 in
      sector_loop sectors' i (k1 + 1) (k2 + 1) vec2
  end.

Fixpoint stack_loop (stacks : list Z) (vec : list Z) : list Z :=
  match stacks with
  | [] => vec
  | i :: stacks' =>
      let k1 := i * (sectorCount + 1) in
      let k2 := k1 + sectorCount + 1 in
      stack_loop stacks' (sector_loop (upto sectorCount) i k1 k2 vec)
  end.

Definition singleSphere_IndicesVec : list Z := stack_loop (upto stackCount) [].

(** [GLuint allSpheres_IndicesArr[numSpheres * singleSphere_IndicesVec.size()]]
    and the loop that fills it. *)
Definition allSpheres_IndicesArr : list Z :=
  map (fun i =>
         let mod_i := i mod size singleSphere_IndicesVec in
         let n := i / size singleSphere_IndicesVec in
         Int32.to_unsigned
           (Int32.add (vec_at 0 singleSphere_IndicesVec mod_i)
                      (Int32.mul NUM_VERTICES_PER_SPHERE n)))
      (upto (numSpheres * size singleSphere_IndicesVec)).

(** ** The real-number model of the numeric pipeline *)

Local Open Scope R_scope.

(** [GLfloat step = 10.00 / (numSpheres_per_side - 1);] *)
Definition step : R := 10.00 / IZR (numSpheres_per_side - 1).

(** The centre coordinate of index [i]: [-5.00f + (i * step)]. *)
Definition coord (i : Z) : R := - 5.00 + (IZR i * step).

(** The two-argument arctangent of libm. *)
Definition atan2 (y x : R) : R :=
  if Rlt_dec 0 x then atan (y / x)
  else if Rlt_dec x 0 then
         if Rle_dec 0 y then atan (y / x) + PI else atan (y / x) - PI
  else if Rlt_dec 0 y then PI / 2
  else if Rlt_dec y 0 then - PI / 2
  else 0.

Definition r_of (x y z : R) : R := sqrt (x * x + y * y + z * z).

Definition theta_of (x y z : R) : R :=
  let r := sqrt (x * x + y * y + z * z) in
  acos (z / r).

Definition phi_of (x y z : R) : R := atan2 y x.

(** *** The ten densities *)

Definition _100_eq (r theta phi : R) : R :=
  let max_prob_amp := 1.0 * powerRZ 10 0 in
  let wavefunction := 1 / max_prob_amp * exp (- r) / sqrt PI in
  wavefunction ^ 2.

Definition _200_eq (r theta phi : R) : R :=
  let max_prob_amp := 1.0 * powerRZ 10 (-1) in
  let wavefunction :=
    1 / max_prob_amp * 1 / 8 / Rpower (2.0 * PI) 0.5 * (2 - r)
    * exp ((- r) / 2) in
  wavefunction ^ 2.

Definition _210_eq (r theta phi : R) : R :=
  let max_prob_amp := 8.7 * powerRZ 10 (-1) in
  let wavefunction := 1 / max_prob_amp * r * exp ((- r) / 2) * cos theta in
  wavefunction ^ 2.

Definition _211_eq (r theta phi : R) : R :=
  let max_prob_amp := 7.5 * powerRZ 10 (-1) in
  let wavefunction := 1 / max_prob_amp * r * exp ((- r) / 2) * sin theta in
  wavefunction ^ 2.

Definition _300_eq (r theta phi : R) : R :=
  let max_prob_amp := 25 * powerRZ 10 (-1) in
  let wavefunction :=
    1 / max_prob_amp * (27 - 18 * r + 2 * r * r) * exp ((- r) / 2) in
  wavefunction ^ 2.

Definition _310_eq (r theta phi : R) : R :=
  let max_prob_amp := 4 * powerRZ 10 0 in
  let wavefunction :=
    1 / max_prob_amp * (6 - r) * r * exp ((- r) / 3) * cos theta in
  wavefunction ^ 2.

Definition _311_eq (r theta phi : R) : R :=
  let max_prob_amp := 4.5 * powerRZ 10 0 in
  let wavefunction :=
    1 / max_prob_amp * (6 - r) * r * exp ((- r) / 3) * sin theta in
  wavefunction ^ 2.

Definition _320_eq (r theta phi : R) : R :=
  let max_prob_amp := 92 * powerRZ 10 (-1) in
  let wavefunction :=
    1 / max_prob_amp * r ^ 2 * exp ((- r) / 3) * (3 * cos theta ^ 2 - 1) in
  wavefunction ^ 2.

Definition _321_eq (r theta phi : R) : R :=
  let max_prob_amp := 25 * powerRZ 10 (-1) in
  let wavefunction :=
    1 / max_prob_amp * r ^ 2 * exp ((- r) / 3) * sin theta * cos theta in
  wavefunction ^ 2.

Definition _322_eq (r theta phi : R) : R :=
  let max_prob_amp := 48 * powerRZ 10 (-1) in
  let wavefunction :=
    1 / max_prob_amp * r ^ 2 * exp ((- r) / 3) * sin theta ^ 2 in
  wavefunction ^ 2.

(** *** One grid cell: the density and its mapping to a radius and a colour *)

(** [probDensity] in the branch of orbital [o], for the cell centred at
    [(x, y, z)]: each branch divides [r] by its own conversion factor. *)
Definition probDensity (o : Orbital) (x y z : R) : R :=
  let r := r_of x y z in
  let theta := theta_of x y z in
  let phi := phi_of x y z in
  match o with
  | O100 => _100_eq (r / 5.0) theta phi
  | O200 => _200_eq (r / 2.5) theta phi
  | O210 => _210_eq r theta phi
  | O211 => _211_eq (r / 1.0) theta phi
  | O300 => _300_eq (r / 0.5) theta phi
  | O310 => _310_eq (r / 0.666666666) theta phi
  | O311 => _311_eq (r / 0.666666666666) theta phi
  | O320 => _320_eq (r / 0.4) theta phi
  | O321 => _321_eq (r / 0.5) theta phi
  | O322 => _322_eq (r / 0.5) theta phi
  end.

Definition sphereRadius (o : Orbital) (probDensity : R) : R :=
  match o with
  | O100 => step / 1.5 * probDensity / 0.31
  | _ => step / 1.5 * probDensity
  end.

Definition sphereColor_red (o : Orbital) (probDensity : R) : R :=
  match o with
  | O100 => 1.0 * (1 - probDensity / 0.31)
  | _ => 1.0 * (1 - probDensity)
  end.

Definition sphereColor_green (o : Orbital) (probDensity : R) : R :=
  match o with
  | O100 => 1.0 * probDensity / 0.31
  | _ => 1.0 * probDensity
  end.

Definition sphereColor_blue (o : Orbital) (probDensity : R) : R := 0.2.

(** *** The tessellation of one sphere *)

Definition sectorStep : R := 2 * PI / IZR sectorCount.
Definition stackStep : R := PI / IZR stackCount.

(** starting from pi/2 to -pi/2 *)
Definition stackAngle (i_local : Z) : R := PI / 2 - IZR i_local * stackStep.
(** starting from 0 to 2pi *)
Definition sectorAngle (j_local : Z) : R := IZR j_local * sectorStep.

Definition xy_local (sphereRadius : R) (i_local : Z) : R :=
  sphereRadius * cos (stackAngle i_local).
Definition z_local (sphereRadius : R) (i_local : Z) : R :=
  sphereRadius * sin (stackAngle i_local).
Definition x_local (sphereRadius : R) (i_local j_local : Z) : R :=
  xy_local sphereRadius i_local * cos (sectorAngle j_local).
Definition y_local (sphereRadius : R) (i_local j_local : Z) : R :=
  xy_local sphereRadius i_local * sin (sectorAngle j_local).

(** The two nested loops over [i_local <= stackCount] and
    [j_local <= sectorCount] push three values per vertex to each of
    [sphereVertices] and [sphereNormals] and two to [sphereTexCoords]. *)
Definition stack_sector_loop {A : Type} (body : Z -> Z -> list A) : list A :=
  flat_map (fun i_local =>
              flat_map (fun j_local => body i_local j_local)
                       (upto (sectorCount + 1)))
           (upto (stackCount + 1)).

Definition sphereVertices (x y z sphereRadius : R) : list R :=
  stack_sector_loop (fun i_local j_local =>
    [ x_local sphereRadius i_local j_local + x;
      y_local sphereRadius i_local j_local + y;
      z_local sphereRadius i_local + z ]).

Definition sphereNormals (sphereRadius : R) : list R :=
  let lengthInv := 1.0 / sphereRadius in
  stack_sector_loop (fun i_local j_local =>
    [ x_local sphereRadius i_local j_local * lengthInv;
      y_local sphereRadius i_local j_local * lengthInv;
      z_local sphereRadius i_local * lengthInv ]).

Definition sphereTexCoords : list R :=
  stack_sector_loop (fun i_local j_local =>
    [ IZR i_local / IZR sectorCount; IZR i_local / IZR stackCount ]).

(** [(int) ((sphereVertices.size() * 11.0)/3)] *)
Definition length_completeSphereVertexVec (vertices : list R) : Z :=
  (size vertices * 11) / 3.

(** One pass of the interleaving loop, entered with [j_a]: coordinates,
    colour, the two zero texture coordinates, normal. *)
Definition vertex_record (vertices normals : list R) (red green blue : R)
  (j_a : Z) : list R :=
  [ vec_at 0 vertices j_a; vec_at 0 vertices (j_a + 1);
    vec_at 0 vertices (j_a + 2);
    red; green; blue;
    0.0; 0.0;
    vec_at 0 normals j_a; vec_at 0 normals (j_a + 1);
    vec_at 0 normals (j_a + 2) ].

(** [for (int i_a = 0; i_a < length_completeSphereVertexVec;)]: every pass
    pushes eleven values and advances [i_a] by eleven and [j_a] by three.
    The fuel bounds the number of passes. *)
Fixpoint vertex_loop (fuel : nat) (len i_a j_a : Z)
  (vertices normals : list R) (red green blue : R) (vec : list R) : list R :=
  match fuel with
  | O => vec
  | S fuel' =>
      if (i_a <? len)%Z then
        vertex_loop fuel' len (i_a + 11) (j_a + 3) vertices normals
          red green blue
          (vec ++ vertex_record vertices normals red green blue j_a)
      else vec
  end.

Definition completeSphereVertexVec (vertices normals : list R)
  (red green blue : R) : list R :=
  let len := length_completeSphereVertexVec vertices in
  vertex_loop (Z.to_nat len) len 0 0 vertices normals red green blue [].

(** *** All spheres *)

(** The vector pushed to [allSpheres_VertexVec] by the cell [(i, j, k)] in
    the branch of orbital [o]. *)
Definition cell_sphere (o : Orbital) (i j k : Z) : list R :=
  let x := coord i in
  let y := coord j in
  let z := coord k in
  let d := probDensity o x y z in
  completeSphereVertexVec
    (sphereVertices x y z (sphereRadius o d))
    (sphereNormals (sphereRadius o d))
    (sphereColor_red o d) (sphereColor_green o d) (sphereColor_blue o d).

(** The cells in the order of the three nested loops: outer [i], middle
    [j], inner [k]. *)
Definition grid_cells : list (Z * Z * Z) :=
  flat_map (fun i =>
    flat_map (fun j =>
      map (fun k => (i, j, k)) (upto numSpheres_per_side))
      (upto numSpheres_per_side))
    (upto numSpheres_per_side).

Definition allSpheres_VertexVec (o : Orbital) : list (list R) :=
  map (fun '(i, j, k) => cell_sphere o i j k) grid_cells.

(** The declared length of [allSpheres_VertexArr]. *)
Definition allSpheres_VertexArr_size (o : Orbital) : Z :=
  numSpheres * size (vec_at [] (allSpheres_VertexVec o) 0).

(** The values written to [allSpheres_VertexArr], from position 0 on. *)
Definition allSpheres_VertexArr (o : Orbital) : list R :=
  concat (allSpheres_VertexVec o).

(** *** The program up to the hand-over of the two arrays *)

Inductive Outcome : Type :=
| NotAllowed
| WindowFailed
| NotSupported
| Rendered (o : Orbital) (VertexArr : list R) (IndicesArr : list Z).

(** [window_created] tells whether [glfwCreateWindow] returned a window. *)
Definition main (window_created : bool) (n l ml : Z) : Outcome :=
  if not_allowed n l ml then NotAllowed
  else if negb window_created then WindowFailed
  else match dispatch n l ml with
       | Some o => Rendered o (allSpheres_VertexArr o) allSpheres_IndicesArr
       | None => NotSupported
       end.

Definition message (r : Outcome) : option string :=
  match r with
  | NotAllowed =>
      Some "This combination of quantum numbers is not allowed."%string
  | WindowFailed => Some "Failed to create GLFW window"%string
  | NotSupported =>
      Some "The quantum numbers entered are not yet supported."%string
  | Rendered _ _ _ => None
  end.

Definition geometry (r : Outcome) : option (list R * list Z) :=
  match r with
  | Rendered _ VertexArr IndicesArr => Some (VertexArr, IndicesArr)
  | _ => None
  end.

(** The value returned by [main] when it returns before the render loop. *)
Definition exit_code (r : Outcome) : option Z :=
  match r with
  | NotAllowed => Some 0%Z
  | WindowFailed => Some (-1)%Z
  | NotSupported => Some 0%Z
  | Rendered _ _ _ => None
  end.

(** ** The IEEE-754 single-precision model of the sampler *)

Module Binary32.

Local Open Scope Z_scope.

(** The formats of [GLfloat] (binary32) and of [double] (binary64). *)
Definition prec : Z := 24.
Definition emax : Z := 128.
Definition prec64 : Z := 53.
Definition emax64 : Z := 1024.

Definition add : spec_float -> spec_float -> spec_float := SFadd prec emax.
Definition mul : spec_float -> spec_float -> spec_float := SFmul prec emax.
Definition div : spec_float -> spec_float -> spec_float := SFdiv prec emax.
Definition sqrt : spec_float -> spec_float := SFsqrt prec emax.
Definition sub : spec_float -> spec_float -> spec_float := SFsub prec emax.
Definition opp : spec_float -> spec_float := SFopp.
Definition div64 : spec_float -> spec_float -> spec_float :=
  SFdiv prec64 emax64.

(** An integer as an exact (unrounded) binary number. *)
Definition exact (z : Z) : spec_float :=
  match z with
  | Z0 => S754_zero false
  | Zpos p => S754_finite false p 0
  | Zneg p => S754_finite true p 0
  end.

(** The conversion of an [int] to [GLfloat] and to [double]. *)
Definition of_int (z : Z) : spec_float := binary_normalize prec emax z 0 false.
Definition double_of_int (z : Z) : spec_float :=
  binary_normalize prec64 emax64 z 0 false.

(** The decimal literal [num/den] with the suffix [f], and without it:
    the quotient rounded to nearest in the format. *)
Definition literal (num den : Z) : spec_float := div (exact num) (exact den).
Definition literal64 (num den : Z) : spec_float :=
  div64 (exact num) (exact den).

(** The narrowing of a [double] to [GLfloat]. *)
Definition of_double (x : spec_float) : spec_float :=
  match x with
  | S754_finite s m e => binary_round prec emax s m e
  | _ => x
  end.

Definition is_nan (x : spec_float) : bool :=
  match x with S754_nan => true | _ => false end.

Definition is_zero (x : spec_float) : bool :=
  match x with S754_zero _ => true | _ => false end.

(** [GLfloat step = 10.00 / (numSpheres_per_side - 1);]: a division of
    doubles, narrowed by the initialisation. *)
Definition step : spec_float :=
  of_double (div64 (literal64 1000 100)
                   (double_of_int (numSpheres_per_side - 1))).

(** [-5.00f + (i * step)] *)
Definition coord (i : Z) : spec_float :=
  add (opp (literal 500 100)) (mul (of_int i) step).

(** [sqrt] at single precision on a [GLfloat] argument. *)
Definition r_of (x y z : spec_float) : spec_float :=
  sqrt (add (add (mul x x) (mul y y)) (mul z z)).

(** The argument handed to [acos] by [theta_of]. *)
Definition theta_of_quotient (x y z : spec_float) : spec_float :=
  let r := sqrt (add (add (mul x x) (mul y y)) (mul z z)) in
  div z r.

Section Libm.

(** The functions of libm and the ten densities are not computed in this
    model: they are parameters. *)
Variable acos : spec_float -> spec_float.
Variable atan2 : spec_float -> spec_float -> spec_float.
Variable density_eq :
  Orbital -> spec_float -> spec_float -> spec_float -> spec_float.

Definition theta_of (x y z : spec_float) : spec_float :=
  acos (theta_of_quotient x y z).

Definition phi_of (x y z : spec_float) : spec_float := atan2 y x.

(** The first argument of the density in each branch; [r/1.0] and
    [r/0.5] are divisions of doubles, narrowed by the call. *)
Definition scaled_r (o : Orbital) (r : spec_float) : spec_float :=
  match o with
  | O100 => div r (literal 50 10)
  | O200 => div r (literal 25 10)
  | O210 => r
  | O211 => of_double (div64 r (literal64 10 10))
  | O300 => of_double (div64 r (literal64 5 10))
  | O310 => div r (literal 666666666 1000000000)
  | O311 => div r (literal 666666666666 1000000000000)
  | O320 => div r (literal 4 10)
  | O321 => div r (literal 5 10)
  | O322 => div r (literal 5 10)
  end.

Definition probDensity (o : Orbital) (x y z : spec_float) : spec_float :=
  let r := r_of x y z in
  let theta := theta_of x y z in
  let phi := phi_of x y z in
  density_eq o (scaled_r o r) theta phi.

End Libm.

(** The mapping of a density to a radius and a colour, and the factor
    [lengthInv] of the normals: additions, multiplications and divisions
    of [GLfloat]. *)
Definition sphereRadius (o : Orbital) (probDensity : spec_float)
  : spec_float :=
  match o with
  | O100 => div (mul (div step (literal 15 10)) probDensity) (literal 31 100)
  | _ => mul (div step (literal 15 10)) probDensity
  end.

Definition sphereColor_red (o : Orbital) (probDensity : spec_float)
  : spec_float :=
  match o with
  | O100 => mul (literal 10 10)
                (sub (of_int 1) (div probDensity (literal 31 100)))
  | _ => mul (literal 10 10) (sub (of_int 1) probDensity)
  end.

Definition sphereColor_green (o : Orbital) (probDensity : spec_float)
  : spec_float :=
  match o with
  | O100 => div (mul (literal 10 10) probDensity) (literal 31 100)
  | _ => mul (literal 10 10) probDensity
  end.

Definition lengthInv (sphereRadius : spec_float) : spec_float :=
  div (literal 10 10) sphereRadius.

(** The cells of the grid whose centre has three zero coordinates. *)
Definition origin_cells : list (Z * Z * Z) :=
  filter (fun '(i, j, k) =>
            is_zero (coord i) && is_zero (coord j) && is_zero (coord k))
         grid_cells.

End Binary32.

(** * Properties *)

Local Open Scope Z_scope.

(** ** 32-bit integers *)

Module Int32Facts.
Import Int32.

(** Side conditions on the range of [int]. *)
Ltac int_range :=
  unfold in_range, min_signed, max_signed in *; lia.

Lemma wrap_in_range (z : Z) : in_range z -> wrap z = z.
Proof.
  unfold in_range, min_signed, max_signed, wrap. intros Hz.
  rewrite Z.mod_small; lia.
Qed.

Lemma wrap_range (z : Z) : in_range (wrap z).
Proof.
  unfold in_range, min_signed, max_signed, wrap.
  pose proof (Z.mod_pos_bound (z + 2 ^ 31) (2 ^ 32) ltac:(lia)). lia.
Qed.

Lemma add_exact (a b : Z) : in_range (a + b) -> add a b = a + b.
Proof. apply wrap_in_range. Qed.

Lemma mul_exact (a b : Z) : in_range (a * b) -> mul a b = a * b.
Proof. apply wrap_in_range. Qed.

Lemma abs_exact (a : Z) : min_signed < a <= max_signed -> abs a = Z.abs a.
Proof.
  unfold abs. intros Ha. destruct (Z.ltb_spec a 0); [|lia].
  rewrite wrap_in_range; [lia | int_range].
Qed.

(** The two places where the arithmetic of the validation leaves the
    range. *)
Lemma abs_min_signed : abs min_signed = min_signed.
Proof. reflexivity. Qed.

Lemma add_max_signed_1 : add max_signed 1 = min_signed.
Proof. reflexivity. Qed.

Lemma to_unsigned_nonneg (z : Z) : 0 <= z <= max_signed -> to_unsigned z = z.
Proof.
  unfold to_unsigned, max_signed. intros Hz. apply Z.mod_small. lia.
Qed.

End Int32Facts.

(** ** Counted loops and vectors *)

Lemma upto_length (n : Z) : List.length (upto n) = Z.to_nat n.
Proof. unfold upto. now rewrite length_map, length_seq. Qed.

Lemma upto_nth (n : Z) (k : nat) (d : Z) :
  (k < Z.to_nat n)%nat -> nth k (upto n) d = Z.of_nat k.
Proof.
  intros Hk. unfold upto.
  rewrite (nth_indep _ d (Z.of_nat 0)) by now rewrite length_map, length_seq.
  rewrite map_nth, seq_nth by assumption. reflexivity.
Qed.

Lemma in_upto (n x : Z) : In x (upto n) <-> 0 <= x < n.
Proof.
  unfold upto. rewrite in_map_iff. split.
  - intros (k & <- & Hk). apply in_seq in Hk. lia.
  - intros Hx. exists (Z.to_nat x). split; [lia|]. apply in_seq. lia.
Qed.

Lemma vec_at_map_upto {A : Type} (f : Z -> A) (n : Z) (d : A) (p : Z) :
  0 <= p < n -> vec_at d (map f (upto n)) p = f p.
Proof.
  intros Hp. unfold vec_at.
  rewrite (nth_indep _ d (f 0)) by (rewrite length_map, upto_length; lia).
  rewrite map_nth, upto_nth by lia. f_equal. lia.
Qed.

Lemma vec_at_map {A B : Type} (f : A -> B) (l : list A) (dA : A) (dB : B)
  (p : Z) :
  0 <= p < size l -> vec_at dB (map f l) p = f (vec_at dA l p).
Proof.
  unfold size, vec_at. intros Hp.
  rewrite (nth_indep _ dB (f dA)) by (rewrite length_map; lia).
  apply map_nth.
Qed.

Lemma vec_at_in {A : Type} (d : A) (v : list A) (p : Z) :
  0 <= p < size v -> In (vec_at d v p) v.
Proof. intros Hp. unfold vec_at, size in *. apply nth_In. lia. Qed.

(** Blocks of one length: the length of their concatenation and the place of
    the [r]-th element of the [q]-th block. *)
Lemma flat_map_uniform_length {A B : Type} (f : A -> list B) (m : nat)
  (l : list A) :
  (forall a, In a l -> List.length (f a) = m) ->
  List.length (flat_map f l) = (List.length l * m)%nat.
Proof.
  induction l as [|a l IH]; intros Hf; simpl; [reflexivity|].
  rewrite length_app, Hf by (simpl; auto).
  rewrite IH by (intros; apply Hf; simpl; auto). reflexivity.
Qed.

Lemma nth_flat_map_uniform {A B : Type} (f : A -> list B) (m : nat)
  (l : list A) (a0 : A) (d : B) (q r : nat) :
  (forall a, In a l -> List.length (f a) = m) ->
  (q < List.length l)%nat -> (r < m)%nat ->
  nth (q * m + r) (flat_map f l) d = nth r (f (nth q l a0)) d.
Proof.
  revert q. induction l as [|a l IH]; intros q Hf Hq Hr; simpl in Hq; [lia|].
  simpl flat_map. destruct q as [|q].
  - simpl. rewrite app_nth1 by (rewrite Hf by (simpl; auto); exact Hr).
    reflexivity.
  - rewrite app_nth2 by (rewrite Hf by (simpl; auto); simpl; lia).
    rewrite Hf by (simpl; auto).
    replace (S q * m + r - m)%nat with (q * m + r)%nat by (simpl; lia).
    simpl nth. apply IH; [intros; apply Hf; simpl; auto | lia | exact Hr].
Qed.

(** ** Validation and dispatch *)

(** Away from the two ends of the range of [int] the first [if] of [main]
    tests exactly the physical validity of the triple. *)
Lemma not_allowed_iff (n l ml : Z) :
  Int32.in_range n ->
  Int32.min_signed < l < Int32.max_signed ->
  Int32.min_signed < ml <= Int32.max_signed ->
  not_allowed n l ml = true <-> physically_invalid n l ml.
Proof.
  intros Hn Hl Hml. unfold not_allowed, physically_invalid.
  rewrite Int32Facts.add_exact, !Int32Facts.abs_exact
    by Int32Facts.int_range.
  rewrite !orb_true_iff, !Z.gtb_ltb, !Z.ltb_lt. lia.
Qed.

(** The validity test comes first: a triple it refuses never reaches the
    creation of the window or the dispatch. *)
Lemma not_allowed_first (w : bool) (n l ml : Z) :
  not_allowed n l ml = true -> main w n l ml = NotAllowed.
Proof. intros H. unfold main. now rewrite H. Qed.

Lemma main_2_1_2 (w : bool) :
  physically_invalid 2 1 2 /\ dispatch 2 1 2 = None /\
  main w 2 1 2 = NotAllowed.
Proof.
  split; [right; right; reflexivity|]. split; reflexivity.
Qed.

(** Neither failure hands over any geometry, and both return 0. *)
Lemma failure_no_geometry (w : bool) (n l ml : Z) :
  main w n l ml = NotAllowed \/ main w n l ml = NotSupported ->
  geometry (main w n l ml) = None /\ exit_code (main w n l ml) = Some 0.
Proof. intros [-> | ->]; split; reflexivity. Qed.

(** The two arrays are handed over only for a triple that passes the
    validity test and that the dispatch knows, and they are the arrays of
    its branch. *)
Lemma main_rendered (w : bool) (n l ml : Z) (o : Orbital)
  (VertexArr : list R) (IndicesArr : list Z) :
  main w n l ml = Rendered o VertexArr IndicesArr ->
  not_allowed n l ml = false /\ w = true /\ dispatch n l ml = Some o /\
  VertexArr = allSpheres_VertexArr o /\ IndicesArr = allSpheres_IndicesArr.
Proof.
  unfold main. destruct (not_allowed n l ml); [discriminate|].
  destruct w; cbn [negb]; [|discriminate].
  destruct (dispatch n l ml) as [o'|]; [|discriminate].
  intros H.
  pose proof (f_equal (fun r => match r with
                                | Rendered o _ _ => o
                                | _ => O100
                                end) H) as Ho.
  pose proof (f_equal (fun r => match r with
                                | Rendered _ V _ => V
                                | _ => []
                                end) H) as HV.
  pose proof (f_equal (fun r => match r with
                                | Rendered _ _ indices => indices
                                | _ => []
                                end) H) as HI.
  cbv beta iota in Ho, HV, HI. subst o'.
  split; [|split; [|split; [|split]]]; (reflexivity || now symmetry).
Qed.

(** Every triple the dispatch knows is physically valid. *)
Lemma dispatch_valid (n l ml : Z) (o : Orbital) :
  dispatch n l ml = Some o -> ~ physically_invalid n l ml.
Proof.
  unfold dispatch, physically_invalid.
  repeat match goal with
         | |- context [if ?b then _ else _] => destruct b eqn:?
         end; intros H; try discriminate;
  repeat match goal with
         | E : _ && _ = true |- _ => apply andb_prop in E; destruct E
         | E : _ || _ = true |- _ => apply orb_prop in E; destruct E
         | E : (_ =? _) = true |- _ => apply Z.eqb_eq in E
         end; subst; lia.
Qed.



(** ** The index list of one sphere *)

Lemma singleSphere_IndicesVec_size : size singleSphere_IndicesVec = 432.
Proof. reflexivity. Qed.

Lemma singleSphere_IndicesVec_bounds :
  Forall (fun x => 0 <= x <= 98) singleSphere_IndicesVec.
Proof.
  apply Forall_forall. intros x Hx.
  assert (H : forallb (fun x => (0 <=? x) && (x <=? 98))
                singleSphere_IndicesVec = true) by (vm_compute; reflexivity).
  rewrite forallb_forall in H. specialize (H x Hx).
  apply andb_prop in H. destruct H as [H1 H2].
  apply Z.leb_le in H1, H2. lia.
Qed.

Lemma singleSphere_IndicesVec_max :
  fold_right Z.max 0 singleSphere_IndicesVec = 98.
Proof. vm_compute. reflexivity. Qed.

Lemma allSpheres_IndicesArr_size :
  size allSpheres_IndicesArr = numSpheres * 432.
Proof.
  unfold allSpheres_IndicesArr. rewrite singleSphere_IndicesVec_size.
  unfold size. rewrite length_map, upto_length.
  apply Z2Nat.id. vm_compute. discriminate.
Qed.

Lemma singleSphere_IndicesVec_at_bounds (t : Z) :
  0 <= t < 432 -> 0 <= vec_at 0 singleSphere_IndicesVec t <= 98.
Proof.
  intros Ht. pose proof singleSphere_IndicesVec_bounds as HF.
  rewrite Forall_forall in HF. apply HF, vec_at_in.
  now rewrite singleSphere_IndicesVec_size.
Qed.

(** The additions and the conversion to [GLuint] that fill the array stay
    within range. *)
Lemma allSpheres_IndicesArr_at (p : Z) :
  0 <= p < numSpheres * 432 ->
  vec_at 0 allSpheres_IndicesArr p
  = vec_at 0 singleSphere_IndicesVec (p mod 432) + 100 * (p / 432).
Proof.
  intros Hp. change numSpheres with 1331 in *.
  assert (Hq : 0 <= p / 432 < 1331)
    by (split; [apply Z.div_pos; lia | apply Z.div_lt_upper_bound; lia]).
  pose proof (singleSphere_IndicesVec_at_bounds (p mod 432)
                (Z.mod_pos_bound p 432 ltac:(lia))) as Hloc.
  unfold allSpheres_IndicesArr. rewrite singleSphere_IndicesVec_size.
  rewrite vec_at_map_upto by (change numSpheres with 1331; lia).
  cbv zeta. change NUM_VERTICES_PER_SPHERE with 100.
  rewrite Int32Facts.mul_exact by Int32Facts.int_range.
  rewrite Int32Facts.add_exact by Int32Facts.int_range.
  apply Int32Facts.to_unsigned_nonneg. Int32Facts.int_range.
Qed.

(** C2. The entry at position [p] of the index array of all spheres is the
    entry at [p mod localLength] of the index list of one sphere plus 100
    times the instance number [p / localLength]; the largest local index
    is 98, so every emitted index is below [numSpheres * 100]. *)
Theorem allSpheres_IndicesArr_entry (p : Z) :
  0 <= p < numSpheres * size singleSphere_IndicesVec ->
  vec_at 0 allSpheres_IndicesArr p
  = vec_at 0 singleSphere_IndicesVec (p mod size singleSphere_IndicesVec)
    + 100 * (p / size singleSphere_IndicesVec)
  /\ 0 <= p / size singleSphere_IndicesVec < numSpheres
  /\ fold_right Z.max 0 singleSphere_IndicesVec = 98
  /\ 0 <= vec_at 0 allSpheres_IndicesArr p < numSpheres * 100.
Proof.
  intros Hp. rewrite singleSphere_IndicesVec_size in *.
  pose proof (allSpheres_IndicesArr_at p Hp) as Hval.
  change numSpheres with 1331 in *.
  assert (Hq : 0 <= p / 432 < 1331)
    by (split; [apply Z.div_pos; lia | apply Z.div_lt_upper_bound; lia]).
  pose proof (singleSphere_IndicesVec_at_bounds (p mod 432)
                (Z.mod_pos_bound p 432 ltac:(lia))) as Hloc.
  split; [exact Hval|]. split; [exact Hq|].
  split; [apply singleSphere_IndicesVec_max | lia].
Qed.

Lemma allSpheres_IndicesArr_entry_witness :
  0 <= 500 < numSpheres * size singleSphere_IndicesVec /\
  vec_at 0 allSpheres_IndicesArr 500
  = vec_at 0 singleSphere_IndicesVec (500 mod size singleSphere_IndicesVec)
    + 100 * (500 / size singleSphere_IndicesVec).
Proof.
  split; [vm_compute; split; [discriminate | reflexivity]|].
  apply (allSpheres_IndicesArr_entry 500).
  vm_compute; split; [discriminate | reflexivity].
Defined.

(** ** The tessellation of one sphere *)

Lemma stack_sector_loop_length {A : Type} (body : Z -> Z -> list A) (m : nat) :
  (forall i j, List.length (body i j) = m) ->
  List.length (stack_sector_loop body) = (100 * m)%nat.
Proof.
  intros Hb. unfold stack_sector_loop.
  rewrite (flat_map_uniform_length _ (10 * m)).
  - rewrite upto_length. change (Z.to_nat (stackCount + 1)) with 10%nat. lia.
  - intros i _. rewrite (flat_map_uniform_length _ m) by (intros; apply Hb).
    rewrite upto_length. reflexivity.
Qed.

Lemma stack_sector_loop_nth {A : Type} (d : A) (body : Z -> Z -> list A)
  (m i j r : nat) :
  (forall i j, List.length (body i j) = m) ->
  (i < 10)%nat -> (j < 10)%nat -> (r < m)%nat ->
  nth ((i * 10 + j) * m + r) (stack_sector_loop body) d
  = nth r (body (Z.of_nat i) (Z.of_nat j)) d.
Proof.
  intros Hb Hi Hj Hr. unfold stack_sector_loop.
  replace ((i * 10 + j) * m + r)%nat with (i * (10 * m) + (j * m + r))%nat
    by ring.
  rewrite (nth_flat_map_uniform _ (10 * m) _ 0%Z).
  - rewrite upto_nth by (simpl; lia).
    rewrite (nth_flat_map_uniform _ m _ 0%Z).
    + rewrite upto_nth by (simpl; lia). reflexivity.
    + intros; apply Hb.
    + rewrite upto_length. simpl. lia.
    + exact Hr.
  - intros a _. rewrite (flat_map_uniform_length _ m) by (intros; apply Hb).
    rewrite upto_length. reflexivity.
  - rewrite upto_length. simpl. lia.
  - nia.
Qed.

(** The [t]-th of the [m] values pushed for the vertex of stack [i] and
    sector [j]. *)
Lemma stack_sector_loop_at {A : Type} (d : A) (body : Z -> Z -> list A)
  (m : nat) (i j t : Z) :
  (forall i j, List.length (body i j) = m) ->
  0 <= i <= stackCount -> 0 <= j <= sectorCount -> 0 <= t < Z.of_nat m ->
  vec_at d (stack_sector_loop body)
           (Z.of_nat m * (i * (sectorCount + 1) + j) + t)
  = vec_at d (body i j) t.
Proof.
  unfold stackCount, sectorCount, vec_at. intros Hb Hi Hj Ht.
  replace (Z.to_nat (Z.of_nat m * (i * (9 + 1) + j) + t))
    with ((Z.to_nat i * 10 + Z.to_nat j) * m + Z.to_nat t)%nat by nia.
  rewrite stack_sector_loop_nth by (assumption || lia).
  now rewrite !Z2Nat.id by lia.
Qed.

Section OneSphere.

Variables x y z rad : R.

Lemma sphereVertices_size : size (sphereVertices x y z rad) = 300.
Proof.
  unfold size, sphereVertices.
  now rewrite (stack_sector_loop_length _ 3) by reflexivity.
Qed.

Lemma sphereNormals_size : size (sphereNormals rad) = 300.
Proof.
  unfold size, sphereNormals.
  now rewrite (stack_sector_loop_length _ 3) by reflexivity.
Qed.

Lemma sphereTexCoords_size : size sphereTexCoords = 200.
Proof.
  unfold size, sphereTexCoords.
  now rewrite (stack_sector_loop_length _ 2) by reflexivity.
Qed.

Variables i_local j_local : Z.
Hypothesis Hi : (0 <= i_local <= stackCount)%Z.
Hypothesis Hj : (0 <= j_local <= sectorCount)%Z.

(** The number of the vertex in the order of generation. *)
Let v : Z := i_local * (sectorCount + 1) + j_local.

Lemma sphereVertices_at (t : Z) :
  0 <= t < 3 ->
  vec_at 0%R (sphereVertices x y z rad) (3 * v + t)
  = vec_at 0%R [ (x_local rad i_local j_local + x)%R;
                 (y_local rad i_local j_local + y)%R;
                 (z_local rad i_local + z)%R ] t.
Proof.
  intros Ht. unfold sphereVertices, v.
  now rewrite (stack_sector_loop_at 0%R _ 3) by (reflexivity || lia).
Qed.

Lemma sphereNormals_at (t : Z) :
  0 <= t < 3 ->
  vec_at 0%R (sphereNormals rad) (3 * v + t)
  = vec_at 0%R [ (x_local rad i_local j_local * (1.0 / rad))%R;
                 (y_local rad i_local j_local * (1.0 / rad))%R;
                 (z_local rad i_local * (1.0 / rad))%R ] t.
Proof.
  intros Ht. unfold sphereNormals, v. cbv zeta.
  now rewrite (stack_sector_loop_at 0%R _ 3) by (reflexivity || lia).
Qed.

End OneSphere.


(** The triangles pushed by each of the nine passes of the outer loop of the
    index list: the first and the last stack give one triangle per sector,
    the seven others two. *)
Lemma triangles_per_stack :
  map (fun i => size (sector_loop (upto sectorCount) i
                        (i * (sectorCount + 1))
                        (i * (sectorCount + 1) + sectorCount + 1) []) / 3)
      (upto stackCount)
  = [9; 18; 18; 18; 18; 18; 18; 18; 9].
Proof. reflexivity. Qed.



(** ** The interleaved vertex vector of one sphere *)

Section Interleave.

Variables vertices normals : list R.
Variables red green blue : R.

Let record (pass : Z) : list R :=
  vertex_record vertices normals red green blue (3 * pass).

(** With [m] passes left to run and enough fuel for them, the loop pushes
    the records of the passes [p], [p+1], ..., [p+m-1] and stops. *)
Lemma vertex_loop_passes (len : Z) (m : nat) :
  forall (p fuel : nat) (vec : list R),
    (m <= fuel)%nat ->
    len <= 11 * (Z.of_nat p + Z.of_nat m) ->
    (m <> 0%nat -> 11 * (Z.of_nat p + Z.of_nat m - 1) < len) ->
    vertex_loop fuel len (11 * Z.of_nat p) (3 * Z.of_nat p)
      vertices normals red green blue vec
    = vec ++ flat_map record (map Z.of_nat (seq p m)).
Proof.
  induction m as [|m IH]; intros p fuel vec Hfuel Hup Hlow.
  - cbn [seq map flat_map]. rewrite app_nil_r.
    destruct fuel as [|fuel]; [reflexivity|]. cbn [vertex_loop].
    destruct (Z.ltb_spec (11 * Z.of_nat p) len); [lia | reflexivity].
  - destruct fuel as [|fuel]; [lia|]. cbn [vertex_loop].
    specialize (Hlow ltac:(discriminate)).
    destruct (Z.ltb_spec (11 * Z.of_nat p) len); [|lia].
    replace (11 * Z.of_nat p + 11) with (11 * Z.of_nat (S p)) by lia.
    replace (3 * Z.of_nat p + 3) with (3 * Z.of_nat (S p)) by lia.
    rewrite IH by lia. cbn [seq map flat_map]. now rewrite <- app_assoc.
Qed.

Hypothesis vertices_size : size vertices = 300.

(** For the 300 coordinates of a sphere the loop makes 100 passes. *)
Lemma completeSphereVertexVec_records :
  completeSphereVertexVec vertices normals red green blue
  = flat_map record (upto 100).
Proof.
  unfold completeSphereVertexVec, length_completeSphereVertexVec.
  rewrite vertices_size. change (300 * 11 / 3) with 1100.
  exact (vertex_loop_passes 1100 100 0 (Z.to_nat 1100) []
           ltac:(lia) ltac:(lia) ltac:(lia)).
Qed.

Lemma completeSphereVertexVec_size :
  size (completeSphereVertexVec vertices normals red green blue) = 1100.
Proof.
  rewrite completeSphereVertexVec_records. unfold size.
  now rewrite (flat_map_uniform_length _ 11) by reflexivity.
Qed.

(** The [t]-th value of the record of vertex [v]. *)
Lemma completeSphereVertexVec_at (v t : Z) :
  0 <= v < 100 -> 0 <= t < 11 ->
  vec_at 0%R (completeSphereVertexVec vertices normals red green blue)
         (11 * v + t)
  = vec_at 0%R (vertex_record vertices normals red green blue (3 * v)) t.
Proof.
  intros Hv Ht. rewrite completeSphereVertexVec_records. unfold vec_at.
  replace (Z.to_nat (11 * v + t))
    with (Z.to_nat v * 11 + Z.to_nat t)%nat by lia.
  rewrite (nth_flat_map_uniform _ 11 _ 0)
    by (reflexivity || (rewrite upto_length; lia) || lia).
  rewrite upto_nth by lia. unfold record. now rewrite Z2Nat.id by lia.
Qed.

End Interleave.

(** The eleven values stored for vertex [v] of the sphere of centre
    [(x, y, z)] and radius [rad]: position, colour, two zero texture
    coordinates, normal. *)
Lemma stored_vertex (x y z rad red green blue : R) (v : Z) :
  0 <= v < 100 ->
  let i_local := v / (sectorCount + 1) in
  let j_local := v mod (sectorCount + 1) in
  let s := completeSphereVertexVec (sphereVertices x y z rad)
             (sphereNormals rad) red green blue in
  map (fun t => vec_at 0%R s (11 * v + t)) (upto 11)
  = [ (x_local rad i_local j_local + x)%R;
      (y_local rad i_local j_local + y)%R;
      (z_local rad i_local + z)%R;
      red; green; blue; 0.0%R; 0.0%R;
      (x_local rad i_local j_local * (1.0 / rad))%R;
      (y_local rad i_local j_local * (1.0 / rad))%R;
      (z_local rad i_local * (1.0 / rad))%R ].
Proof.
  intros Hv i_local j_local s. change (sectorCount + 1) with 10 in *.
  assert (Hi : 0 <= i_local <= stackCount).
  { unfold i_local, stackCount.
    split; [apply Z.div_pos; lia|].
    apply Z.lt_succ_r, Z.div_lt_upper_bound; lia. }
  assert (Hj : 0 <= j_local <= sectorCount).
  { unfold j_local, sectorCount.
    pose proof (Z.mod_pos_bound v 10 ltac:(lia)). lia. }
  assert (Ev : v = i_local * (sectorCount + 1) + j_local).
  { unfold i_local, j_local. change (sectorCount + 1) with 10.
    rewrite (Z.div_mod v 10) at 1 by lia. ring. }
  pose proof (sphereVertices_at x y z rad i_local j_local Hi Hj) as HV.
  pose proof (sphereNormals_at rad i_local j_local Hi Hj) as HN.
  cbv zeta in HV, HN. rewrite <- Ev in HV, HN.
  pose proof (HV 0 ltac:(lia)) as HV0. rewrite Z.add_0_r in HV0.
  pose proof (HV 1 ltac:(lia)) as HV1. pose proof (HV 2 ltac:(lia)) as HV2.
  pose proof (HN 0 ltac:(lia)) as HN0. rewrite Z.add_0_r in HN0.
  pose proof (HN 1 ltac:(lia)) as HN1. pose proof (HN 2 ltac:(lia)) as HN2.
  change (upto 11) with [0; 1; 2; 3; 4; 5; 6; 7; 8; 9; 10].
  cbn [map]. unfold s.
  rewrite !(completeSphereVertexVec_at _ _ _ _ _ (sphereVertices_size x y z rad))
    by lia.
  unfold vertex_record. rewrite HV0, HV1, HV2, HN0, HN1, HN2. reflexivity.
Qed.

(** The values of one record by their place. *)
Lemma stored_vertex_at (x y z rad red green blue : R) (v t : Z) :
  0 <= v < 100 -> 0 <= t < 11 ->
  let i_local := v / (sectorCount + 1) in
  let j_local := v mod (sectorCount + 1) in
  vec_at 0%R (completeSphereVertexVec (sphereVertices x y z rad)
                (sphereNormals rad) red green blue) (11 * v + t)
  = vec_at 0%R
      [ (x_local rad i_local j_local + x)%R;
        (y_local rad i_local j_local + y)%R;
        (z_local rad i_local + z)%R;
        red; green; blue; 0.0%R; 0.0%R;
        (x_local rad i_local j_local * (1.0 / rad))%R;
        (y_local rad i_local j_local * (1.0 / rad))%R;
        (z_local rad i_local * (1.0 / rad))%R ] t.
Proof.
  intros Hv Ht. cbv zeta.
  pose proof (stored_vertex x y z rad red green blue v Hv) as H.
  cbv zeta in H. rewrite <- H.
  symmetry. apply (vec_at_map_upto (fun t => vec_at 0%R _ (11 * v + t))).
  exact Ht.
Qed.

(** The loop reads [sphereVertices] and [sphereNormals] within their
    bounds: [at] never throws. *)
Lemma vertex_record_within_bounds (x y z rad : R) (v t : Z) :
  0 <= v < 100 -> 0 <= t < 3 ->
  0 <= 3 * v + t < size (sphereVertices x y z rad) /\
  0 <= 3 * v + t < size (sphereNormals rad).
Proof.
  intros Hv Ht. rewrite sphereVertices_size, sphereNormals_size. lia.
Qed.

(** The same record, field by field. *)
Lemma stored_vertex_fields (x y z rad red green blue : R) (v : Z) :
  0 <= v < 100 ->
  let i_local := v / (sectorCount + 1) in
  let j_local := v mod (sectorCount + 1) in
  let s := completeSphereVertexVec (sphereVertices x y z rad)
             (sphereNormals rad) red green blue in
  (vec_at 0%R s (11 * v) = x_local rad i_local j_local + x /\
   vec_at 0%R s (11 * v + 1) = y_local rad i_local j_local + y /\
   vec_at 0%R s (11 * v + 2) = z_local rad i_local + z)%R /\
  (vec_at 0%R s (11 * v + 3) = red /\
   vec_at 0%R s (11 * v + 4) = green /\
   vec_at 0%R s (11 * v + 5) = blue) /\
  (vec_at 0%R s (11 * v + 6) = 0.0 /\ vec_at 0%R s (11 * v + 7) = 0.0)%R /\
  (vec_at 0%R s (11 * v + 8) = x_local rad i_local j_local * (1.0 / rad) /\
   vec_at 0%R s (11 * v + 9) = y_local rad i_local j_local * (1.0 / rad) /\
   vec_at 0%R s (11 * v + 10) = z_local rad i_local * (1.0 / rad))%R.
Proof.
  intros Hv. cbv zeta.
  repeat match goal with |- _ /\ _ => split end.
  - rewrite <- (Z.add_0_r (11 * v)).
    exact (stored_vertex_at x y z rad red green blue v 0 Hv ltac:(lia)).
  - exact (stored_vertex_at x y z rad red green blue v 1 Hv ltac:(lia)).
  - exact (stored_vertex_at x y z rad red green blue v 2 Hv ltac:(lia)).
  - exact (stored_vertex_at x y z rad red green blue v 3 Hv ltac:(lia)).
  - exact (stored_vertex_at x y z rad red green blue v 4 Hv ltac:(lia)).
  - exact (stored_vertex_at x y z rad red green blue v 5 Hv ltac:(lia)).
  - exact (stored_vertex_at x y z rad red green blue v 6 Hv ltac:(lia)).
  - exact (stored_vertex_at x y z rad red green blue v 7 Hv ltac:(lia)).
  - exact (stored_vertex_at x y z rad red green blue v 8 Hv ltac:(lia)).
  - exact (stored_vertex_at x y z rad red green blue v 9 Hv ltac:(lia)).
  - exact (stored_vertex_at x y z rad red green blue v 10 Hv ltac:(lia)).
Qed.

(** ** The grid *)

Lemma numSpheres_value : numSpheres = 1331.
Proof. reflexivity. Qed.

Lemma numSpheres_per_side_value : numSpheres_per_side = 11.
Proof. vm_compute. reflexivity. Qed.

Lemma numSpheres_per_side_cube : numSpheres_per_side ^ 3 = numSpheres.
Proof. vm_compute. reflexivity. Qed.

Lemma step_value : step = 1%R.
Proof.
  unfold step. rewrite numSpheres_per_side_value.
  change (11 - 1) with 10. lra.
Qed.

Lemma coord_value (i : Z) : coord i = (- 5 + IZR i)%R.
Proof. unfold coord. rewrite step_value. lra. Qed.

Lemma coord_bounds (i : Z) :
  0 <= i < numSpheres_per_side -> (- 5 <= coord i <= 5)%R.
Proof.
  rewrite numSpheres_per_side_value, coord_value. intros [H0 H1].
  apply IZR_le in H0. apply Z.lt_succ_r with (m := 10), IZR_le in H1. lra.
Qed.

(** The cell number [q] in the order of traversal has the indices
    [i = q / 121], [j = (q / 11) mod 11] and [k = q mod 11]. *)
Lemma grid_cells_traversal :
  grid_cells = map (fun q => (q / 121, (q / 11) mod 11, q mod 11)) (upto 1331).
Proof. vm_compute. reflexivity. Qed.

Lemma grid_cells_size : size grid_cells = 1331.
Proof. reflexivity. Qed.

Lemma grid_cells_at (i j k : Z) :
  0 <= i < 11 -> 0 <= j < 11 -> 0 <= k < 11 ->
  vec_at (0, 0, 0) grid_cells ((i * 11 + j) * 11 + k) = (i, j, k).
Proof.
  intros Hi Hj Hk. rewrite grid_cells_traversal.
  rewrite vec_at_map_upto by lia.
  repeat f_equal; Z.div_mod_to_equations; lia.
Qed.

Lemma in_grid_cells (i j k : Z) :
  In (i, j, k) grid_cells <->
  0 <= i < 11 /\ 0 <= j < 11 /\ 0 <= k < 11.
Proof.
  unfold grid_cells. rewrite numSpheres_per_side_value, in_flat_map. split.
  - intros (i' & Hi & H). rewrite in_flat_map in H.
    destruct H as (j' & Hj & H). rewrite in_map_iff in H.
    destruct H as (k' & E & Hk). injection E as <- <- <-.
    now rewrite !in_upto in *.
  - intros (Hi & Hj & Hk). exists i. rewrite in_upto. split; [exact Hi|].
    rewrite in_flat_map. exists j. rewrite in_upto. split; [exact Hj|].
    rewrite in_map_iff. exists k. now rewrite in_upto.
Qed.

Lemma allSpheres_VertexVec_length (o : Orbital) :
  List.length (allSpheres_VertexVec o) = 1331%nat.
Proof. unfold allSpheres_VertexVec. now rewrite length_map. Qed.

(** C4. Whatever the orbital, the sampler visits 11^3 = 1331 cells, one per
    triple of indices in [0, 11); the step is 10.0/10 = 1.0, the centre
    coordinate of index [i] is -5.0 + i * step, within [-5, 5], and the
    indices 0 and 10 give the two faces -5 and 5.  The same coordinates are
    computed exactly in single precision. *)
Theorem sampler_grid (o : Orbital) (i j k : Z) :
  0 <= i < 11 -> 0 <= j < 11 -> 0 <= k < 11 ->
  numSpheres_per_side = 11 /\
  List.length (allSpheres_VertexVec o) = 1331%nat /\
  size grid_cells = 11 ^ 3 /\
  (forall a b c, In (a, b, c) grid_cells <->
                 0 <= a < 11 /\ 0 <= b < 11 /\ 0 <= c < 11) /\
  vec_at [] (allSpheres_VertexVec o) ((i * 11 + j) * 11 + k)
  = cell_sphere o i j k /\
  step = (10.0 / 10)%R /\ step = 1.0%R /\
  coord i = (- 5.0 + IZR i * step)%R /\
  (- 5 <= coord i <= 5)%R /\ (- 5 <= coord j <= 5)%R /\
  (- 5 <= coord k <= 5)%R /\
  coord 0 = (- 5)%R /\ coord 10 = 5%R /\
  Binary32.step = Binary32.of_int 1 /\
  map Binary32.coord (upto numSpheres_per_side)
  = map Binary32.of_int [-5; -4; -3; -2; -1; 0; 1; 2; 3; 4; 5].
Proof.
  intros Hi Hj Hk.
  split; [apply numSpheres_per_side_value|].
  split; [apply allSpheres_VertexVec_length|].
  split; [reflexivity|].
  split; [apply in_grid_cells|].
  split.
  { unfold allSpheres_VertexVec.
    rewrite (vec_at_map _ _ (0, 0, 0)) by (rewrite grid_cells_size; lia).
    now rewrite grid_cells_at. }
  split; [rewrite step_value; lra|].
  split; [rewrite step_value; lra|].
  split; [unfold coord; lra|].
  rewrite <- numSpheres_per_side_value in Hi, Hj, Hk.
  split; [now apply coord_bounds|].
  split; [now apply coord_bounds|].
  split; [now apply coord_bounds|].
  split; [rewrite coord_value; lra|].
  split; [rewrite coord_value; lra|].
  split; vm_compute; reflexivity.
Qed.

Lemma sampler_grid_witness :
  (0 <= 10 < 11 /\ 0 <= 0 < 11 /\ 0 <= 5 < 11) /\ (- 5 <= coord 10 <= 5)%R.
Proof.
  split; [lia|].
  apply (sampler_grid O100 10 0 5); lia.
Defined.

(** ** The densities and their mapping *)

(** C5. In the cell [(i, j, k)] the radius is
    (step/1.5) * densityNormalized, the red is 1 - densityNormalized, the
    green is densityNormalized and the blue is 0.2, where densityNormalized
    is density/0.31 for the orbital (1,0,0) and the density itself for the
    nine others; the sphere of the cell is generated from these values.  The
    same equations hold for every value [d] of the density, inside [0, 1]
    or not: nothing is clamped. *)
Theorem density_mapping (o : Orbital) (i j k : Z) (d : R) :
  let densityNormalized (density : R) : R :=
    match o with O100 => (density / 0.31)%R | _ => density end in
  let x := coord i in
  let y := coord j in
  let z := coord k in
  let density := probDensity o x y z in
  (sphereRadius o density = step / 1.5 * densityNormalized density /\
   sphereColor_red o density = 1 - densityNormalized density /\
   sphereColor_green o density = densityNormalized density /\
   sphereColor_blue o density = 0.2)%R /\
  cell_sphere o i j k
  = completeSphereVertexVec
      (sphereVertices x y z (step / 1.5 * densityNormalized density))
      (sphereNormals (step / 1.5 * densityNormalized density))
      (1 - densityNormalized density) (densityNormalized density) 0.2%R /\
  (sphereRadius o d = step / 1.5 * densityNormalized d /\
   sphereColor_red o d = 1 - densityNormalized d /\
   sphereColor_green o d = densityNormalized d /\
   sphereColor_blue o d = 0.2)%R.
Proof.
  intros dn x y z density.
  assert (Hmap : forall d' : R,
             (sphereRadius o d' = step / 1.5 * dn d' /\
              sphereColor_red o d' = 1 - dn d' /\
              sphereColor_green o d' = dn d' /\
              sphereColor_blue o d' = 0.2)%R).
  { intros d'. subst dn.
    unfold sphereRadius, sphereColor_red, sphereColor_green, sphereColor_blue.
    destruct o; repeat split; lra. }
  split; [apply Hmap|]. split; [|apply Hmap].
  destruct (Hmap density) as (Hr & Hred & Hgreen & Hblue).
  unfold cell_sphere. cbv zeta. fold x y z. fold density.
  now rewrite Hr, Hred, Hgreen, Hblue.
Qed.

(** The colour stored with every vertex of a cell is the colour computed by
    the mapping. *)
Lemma cell_colour (o : Orbital) (i j k v : Z) :
  0 <= v < 100 ->
  let d := probDensity o (coord i) (coord j) (coord k) in
  vec_at 0%R (cell_sphere o i j k) (11 * v + 3) = sphereColor_red o d /\
  vec_at 0%R (cell_sphere o i j k) (11 * v + 4) = sphereColor_green o d /\
  vec_at 0%R (cell_sphere o i j k) (11 * v + 5) = sphereColor_blue o d.
Proof.
  intros Hv d. unfold cell_sphere. cbv zeta. fold d.
  pose proof (stored_vertex_fields (coord i) (coord j) (coord k)
                (sphereRadius o d) (sphereColor_red o d)
                (sphereColor_green o d) (sphereColor_blue o d) v Hv) as H.
  cbv zeta in H. tauto.
Qed.

(** C9. The density of the orbital (1,0,0) at r = 0, theta = pi/2, phi = 0
    is (1/normConst)^2 * (1/pi) for the constant 1.0 of that orbital, that
    is 1/pi. *)
Theorem ground_state_at_origin :
  let normConst := (1.0 * powerRZ 10 0)%R in
  normConst = 1.0%R /\
  _100_eq 0 (PI / 2) 0 = ((1 / normConst) ^ 2 * (1 / PI))%R /\
  _100_eq 0 (PI / 2) 0 = (1 / PI)%R.
Proof.
  cbv zeta. unfold _100_eq. cbn [powerRZ].
  rewrite Ropp_0, exp_0.
  assert (HPI : (0 < PI)%R) by apply PI_RGT_0.
  assert (Hs : (0 < sqrt PI)%R) by now apply sqrt_lt_R0.
  assert (Hq : (sqrt PI * sqrt PI = PI)%R) by (apply sqrt_sqrt; lra).
  split; [lra|].
  assert (E : ((1 / (1.0 * 1) * 1 / sqrt PI) ^ 2 = 1 / PI)%R).
  { replace 1.0%R with 1%R by lra. rewrite <- Hq at 2. field. lra. }
  split; [|exact E].
  rewrite E. replace (1.0 * 1)%R with 1%R by lra. field. lra.
Qed.

(** Each of the ten functions returns a square. *)
Lemma densities_nonneg (r theta phi : R) :
  (0 <= _100_eq r theta phi /\ 0 <= _200_eq r theta phi /\
   0 <= _210_eq r theta phi /\ 0 <= _211_eq r theta phi /\
   0 <= _300_eq r theta phi /\ 0 <= _310_eq r theta phi /\
   0 <= _311_eq r theta phi /\ 0 <= _320_eq r theta phi /\
   0 <= _321_eq r theta phi /\ 0 <= _322_eq r theta phi)%R.
Proof.
  unfold _100_eq, _200_eq, _210_eq, _211_eq, _300_eq, _310_eq, _311_eq,
    _320_eq, _321_eq, _322_eq.
  cbv zeta. repeat split; apply pow2_ge_0.
Qed.

Lemma probDensity_nonneg (o : Orbital) (x y z : R) :
  (0 <= probDensity o x y z)%R.
Proof.
  unfold probDensity. cbv zeta.
  destruct o;
    match goal with
    | |- (0 <= ?f ?r ?t ?p)%R =>
        pose proof (densities_nonneg r t p); tauto
    end.
Qed.

(** C10. Each of the ten densities is the square of a real amplitude, hence
    non-negative; so in every cell the red is at most 1 and the green at
    least 0: a colour can leave [0, 1] only by a green above 1 or a red
    below 0. *)
Theorem density_nonneg_colour_sides (o : Orbital) (r theta phi x y z : R) :
  (0 <= _100_eq r theta phi /\ 0 <= _200_eq r theta phi /\
   0 <= _210_eq r theta phi /\ 0 <= _211_eq r theta phi /\
   0 <= _300_eq r theta phi /\ 0 <= _310_eq r theta phi /\
   0 <= _311_eq r theta phi /\ 0 <= _320_eq r theta phi /\
   0 <= _321_eq r theta phi /\ 0 <= _322_eq r theta phi)%R /\
  (0 <= probDensity o x y z)%R /\
  (sphereColor_red o (probDensity o x y z) <= 1)%R /\
  (0 <= sphereColor_green o (probDensity o x y z))%R /\
  ~ (1 < sphereColor_red o (probDensity o x y z))%R /\
  ~ (sphereColor_green o (probDensity o x y z) < 0)%R.
Proof.
  split; [apply densities_nonneg|].
  pose proof (probDensity_nonneg o x y z) as Hd.
  split; [exact Hd|].
  unfold sphereColor_red, sphereColor_green.
  destruct o; repeat split; lra.
Qed.

(** ** The stored normals *)






(** ** The two arrays of all spheres *)

Lemma cell_sphere_size (o : Orbital) (i j k : Z) :
  size (cell_sphere o i j k) = 1100.
Proof.
  unfold cell_sphere. cbv zeta.
  apply completeSphereVertexVec_size, sphereVertices_size.
Qed.

Lemma allSpheres_VertexVec_uniform (o : Orbital) (c : Z * Z * Z) :
  List.length ((fun '(i, j, k) => cell_sphere o i j k) c) = 1100%nat.
Proof.
  destruct c as [[i j] k].
  pose proof (cell_sphere_size o i j k) as H. unfold size in H. lia.
Qed.

Lemma allSpheres_VertexArr_length (o : Orbital) :
  size (allSpheres_VertexArr o) = 1331 * 1100.
Proof.
  unfold allSpheres_VertexArr, allSpheres_VertexVec, size.
  rewrite <- flat_map_concat_map.
  rewrite (flat_map_uniform_length _ 1100)
    by (intros; apply allSpheres_VertexVec_uniform).
  rewrite Nat2Z.inj_mul. change (Z.of_nat (List.length grid_cells)) with 1331.
  reflexivity.
Qed.

(** The [t]-th value of the cell [(i, j, k)] is at the place
    [((i * 11 + j) * 11 + k) * 1100 + t] of the array. *)
Lemma allSpheres_VertexArr_at (o : Orbital) (i j k t : Z) :
  0 <= i < 11 -> 0 <= j < 11 -> 0 <= k < 11 -> 0 <= t < 1100 ->
  vec_at 0%R (allSpheres_VertexArr o) (((i * 11 + j) * 11 + k) * 1100 + t)
  = vec_at 0%R (cell_sphere o i j k) t.
Proof.
  intros Hi Hj Hk Ht.
  unfold allSpheres_VertexArr, allSpheres_VertexVec.
  rewrite <- flat_map_concat_map. unfold vec_at at 1.
  replace (Z.to_nat (((i * 11 + j) * 11 + k) * 1100 + t))
    with (Z.to_nat ((i * 11 + j) * 11 + k) * 1100 + Z.to_nat t)%nat by lia.
  rewrite (nth_flat_map_uniform _ 1100 _ (0, 0, 0)).
  - change (nth (Z.to_nat ((i * 11 + j) * 11 + k)) grid_cells (0, 0, 0))
      with (vec_at (0, 0, 0) grid_cells ((i * 11 + j) * 11 + k)).
    now rewrite grid_cells_at.
  - intros; apply allSpheres_VertexVec_uniform.
  - change (List.length grid_cells) with 1331%nat. lia.
  - lia.
Qed.

(** C6 (amended).  The vertex array is the concatenation, in the order of
    traversal of the grid (outer [i], middle [j], inner [k]), of the 100
    records of 11 values of each of the N = 1331 cells, and has
    N * 100 * 11 values; the index array is the concatenation of the N
    copies of the index list of one sphere, the copy [q] shifted by
    100 * q, and has N * 432 values: three indices for each of the 144
    triangles. *)
Theorem aggregate_arrays (o : Orbital) (i j k t q u : Z) :
  0 <= i < 11 -> 0 <= j < 11 -> 0 <= k < 11 -> 0 <= t < 100 * 11 ->
  0 <= q < numSpheres -> 0 <= u < 432 ->
  numSpheres = 1331 /\
  size (cell_sphere o i j k) = 100 * 11 /\
  size (allSpheres_VertexArr o) = numSpheres * 100 * 11 /\
  allSpheres_VertexArr_size o = numSpheres * 100 * 11 /\
  vec_at 0%R (allSpheres_VertexArr o)
         (((i * 11 + j) * 11 + k) * (100 * 11) + t)
  = vec_at 0%R (cell_sphere o i j k) t /\
  size singleSphere_IndicesVec = 3 * 144 /\
  size allSpheres_IndicesArr = numSpheres * (3 * 144) /\
  vec_at 0 allSpheres_IndicesArr (q * 432 + u)
  = vec_at 0 singleSphere_IndicesVec u + 100 * q.
Proof.
  intros Hi Hj Hk Ht Hq Hu. change (100 * 11) with 1100 in *.
  split; [reflexivity|].
  split; [apply cell_sphere_size|].
  split; [apply allSpheres_VertexArr_length|].
  split.
  { unfold allSpheres_VertexArr_size.
    replace 0 with ((0 * 11 + 0) * 11 + 0) by reflexivity.
    unfold allSpheres_VertexVec.
    rewrite (vec_at_map _ _ (0, 0, 0)) by (rewrite grid_cells_size; lia).
    rewrite grid_cells_at by lia. rewrite cell_sphere_size. reflexivity. }
  split; [now apply allSpheres_VertexArr_at|].
  split; [reflexivity|].
  split; [apply allSpheres_IndicesArr_size|].
  change numSpheres with 1331 in Hq.
  rewrite allSpheres_IndicesArr_at by (change numSpheres with 1331; lia).
  replace ((q * 432 + u) mod 432) with u
    by (Z.div_mod_to_equations; lia).
  replace ((q * 432 + u) / 432) with q by (Z.div_mod_to_equations; lia).
  reflexivity.
Qed.

Lemma aggregate_arrays_witness :
  (0 <= 3 < 11 /\ 0 <= 4 < 11 /\ 0 <= 5 < 11 /\ 0 <= 7 < 100 * 11 /\
   0 <= 2 < numSpheres /\ 0 <= 1 < 432) /\
  size allSpheres_IndicesArr = numSpheres * (3 * 144).
Proof.
  assert (Hq : 0 <= 2 < numSpheres)
    by (vm_compute; split; [discriminate | reflexivity]).
  split; [intuition lia|].
  apply (aggregate_arrays O100 3 4 5 7 2 1); lia || exact Hq.
Defined.

(** C6, counterexample. The index array does not have N * 144 values. *)
Lemma index_array_not_144_per_sphere :
  size allSpheres_IndicesArr <> numSpheres * 144.
Proof. rewrite allSpheres_IndicesArr_size. discriminate. Qed.

(** ** The sampler in single precision *)

Module Binary32Facts.
Import Binary32.

Lemma step_binary32 : step = of_int 1.
Proof. vm_compute. reflexivity. Qed.

(** The eleven coordinates are the integers from -5 to 5, without any
    rounding error. *)
Lemma coord_binary32 :
  map coord (upto numSpheres_per_side)
  = map of_int [-5; -4; -3; -2; -1; 0; 1; 2; 3; 4; 5].
Proof. vm_compute. reflexivity. Qed.

Lemma coord_binary32_5 : coord 5 = S754_zero false.
Proof. vm_compute. reflexivity. Qed.

(** The cell (10, 5, 5) is centred at (5, 0, 0); there [r] is exactly 5,
    the argument [r/2.5f] of the orbital (2,0,0) exactly 2 and its factor
    [2 - r] exactly zero. *)
Lemma zero_radius_cell_binary32 :
  map coord [10; 5; 5] = map of_int [5; 0; 0] /\
  r_of (coord 10) (coord 5) (coord 5) = of_int 5 /\
  div (r_of (coord 10) (coord 5) (coord 5)) (literal 25 10) = of_int 2 /\
  sub (of_int 2) (div (r_of (coord 10) (coord 5) (coord 5)) (literal 25 10))
  = S754_zero false.
Proof. repeat split; vm_compute; reflexivity. Qed.

(** Nothing stops a NaN: a density that is NaN gives a radius and a colour
    that are NaN, and no comparison with a NaN holds. *)
Lemma nan_density_mapping (o : Orbital) :
  sphereRadius o S754_nan = S754_nan /\
  sphereColor_red o S754_nan = S754_nan /\
  sphereColor_green o S754_nan = S754_nan /\
  SFleb S754_nan (of_int 1) = false /\ SFleb (of_int 0) S754_nan = false.
Proof. destruct o; repeat split; vm_compute; reflexivity. Qed.

(** For a radius that is zero [lengthInv] is +infinity and the product of a
    zero local coordinate with it is NaN. *)
Lemma zero_radius_normal_binary32 (negative : bool) :
  lengthInv (S754_zero false) = S754_infinity false /\
  mul (S754_zero negative) (lengthInv (S754_zero false)) = S754_nan.
Proof. destruct negative; split; vm_compute; reflexivity. Qed.

Section Libm.

Variable acos : spec_float -> spec_float.
Variable atan2 : spec_float -> spec_float -> spec_float.
Variable density_eq :
  Orbital -> spec_float -> spec_float -> spec_float -> spec_float.

Lemma scaled_r_zero (o : Orbital) :
  scaled_r o (S754_zero false) = S754_zero false.
Proof. destruct o; vm_compute; reflexivity. Qed.

(** C8. On the grid of half-extent 5.0 and resolution 11 exactly one
    cell, (5, 5, 5), is centred at the origin.  There [r_of] returns 0,
    the quotient [z / r] of [theta_of] is 0/0, which is NaN in IEEE
    arithmetic, and the density of the branch is called with
    [acos] of that NaN as its angle [theta]. *)
Theorem origin_cell_theta_nan (o : Orbital) :
  origin_cells = [(5, 5, 5)] /\
  In (5, 5, 5) grid_cells /\
  coord 5 = S754_zero false /\
  r_of (coord 5) (coord 5) (coord 5) = S754_zero false /\
  theta_of_quotient (coord 5) (coord 5) (coord 5)
  = div (S754_zero false) (S754_zero false) /\
  div (S754_zero false) (S754_zero false) = S754_nan /\
  theta_of acos (coord 5) (coord 5) (coord 5) = acos S754_nan /\
  probDensity acos atan2 density_eq o (coord 5) (coord 5) (coord 5)
  = density_eq o (S754_zero false) (acos S754_nan)
      (atan2 (S754_zero false) (S754_zero false)).
Proof.
  split; [vm_compute; reflexivity|].
  split; [apply in_grid_cells; lia|].
  split; [apply coord_binary32_5|].
  assert (Hr : r_of (coord 5) (coord 5) (coord 5) = S754_zero false)
    by (vm_compute; reflexivity).
  assert (Hq : theta_of_quotient (coord 5) (coord 5) (coord 5) = S754_nan)
    by (vm_compute; reflexivity).
  split; [exact Hr|].
  split; [vm_compute; reflexivity|].
  split; [vm_compute; reflexivity|].
  split; [unfold theta_of; now rewrite Hq|].
  unfold probDensity, theta_of, phi_of. cbv zeta.
  now rewrite Hr, Hq, scaled_r_zero, coord_binary32_5.
Qed.

End Libm.

End Binary32Facts.

(** * Further properties of the program *)

Local Open Scope Z_scope.

(** ** The validity test and the dispatch together *)

Lemma dispatch_opp (n l ml : Z) : dispatch n l (- ml) = dispatch n l ml.
Proof.
  assert (H : ml = 0 \/ ml = 1 \/ ml = -1 \/ ml = 2 \/ ml = -2 \/
              (ml <> 0 /\ ml <> 1 /\ ml <> -1 /\ ml <> 2 /\ ml <> -2))
    by lia.
  destruct H as [-> | [-> | [-> | [-> | [-> | H]]]]]; try reflexivity.
  unfold dispatch.
  replace (- ml =? 0) with false by (symmetry; apply Z.eqb_neq; lia).
  replace (- ml =? 1) with false by (symmetry; apply Z.eqb_neq; lia).
  replace (- ml =? -1) with false by (symmetry; apply Z.eqb_neq; lia).
  replace (- ml =? 2) with false by (symmetry; apply Z.eqb_neq; lia).
  replace (- ml =? -2) with false by (symmetry; apply Z.eqb_neq; lia).
  replace (ml =? 0) with false by (symmetry; apply Z.eqb_neq; lia).
  replace (ml =? 1) with false by (symmetry; apply Z.eqb_neq; lia).
  replace (ml =? -1) with false by (symmetry; apply Z.eqb_neq; lia).
  replace (ml =? 2) with false by (symmetry; apply Z.eqb_neq; lia).
  replace (ml =? -2) with false by (symmetry; apply Z.eqb_neq; lia).
  reflexivity.
Qed.

(** X2. The sign of the magnetic quantum number does not matter: the program
    ends in the same way, with the same two arrays, for [ml] and [- ml]. *)
Theorem main_ml_sign (w : bool) (n l ml : Z) :
  Int32.min_signed < ml <= Int32.max_signed ->
  main w n l (- ml) = main w n l ml.
Proof.
  intros Hml. unfold main, not_allowed.
  rewrite dispatch_opp, !(Int32Facts.abs_exact ml), (Int32Facts.abs_exact (- ml))
    by Int32Facts.int_range.
  now rewrite Z.abs_opp.
Qed.

Lemma main_ml_sign_witness :
  Int32.min_signed < 1 <= Int32.max_signed /\
  main true 2 1 (- (1)) = main true 2 1 1.
Proof.
  split; [vm_compute; split; [reflexivity | discriminate]|].
  apply (main_ml_sign true 2 1 1).
  vm_compute; split; [reflexivity | discriminate].
Defined.

(** The dispatch knows a physically valid triple exactly when [n <= 3]. *)
Lemma dispatch_valid_triple (n l ml : Z) :
  ~ physically_invalid n l ml ->
  (dispatch n l ml = None <-> 3 < n).
Proof.
  unfold physically_invalid. intros Hv.
  assert (Hl : 0 <= l < n) by lia.
  assert (Hm : - l <= ml <= l) by lia.
  destruct (Z_lt_le_dec 3 n) as [Hn | Hn].
  - split; [intros _; exact Hn | intros _].
    unfold dispatch.
    replace (n =? 1) with false by (symmetry; apply Z.eqb_neq; lia).
    replace (n =? 2) with false by (symmetry; apply Z.eqb_neq; lia).
    replace (n =? 3) with false by (symmetry; apply Z.eqb_neq; lia).
    reflexivity.
  - split; [|lia]. intros Hd. exfalso.
    assert (Hcases :
      (n = 1 /\ l = 0 /\ ml = 0) \/
      (n = 2 /\ l = 0 /\ ml = 0) \/
      (n = 2 /\ l = 1 /\ (ml = -1 \/ ml = 0 \/ ml = 1)) \/
      (n = 3 /\ l = 0 /\ ml = 0) \/
      (n = 3 /\ l = 1 /\ (ml = -1 \/ ml = 0 \/ ml = 1)) \/
      (n = 3 /\ l = 2 /\
       (ml = -2 \/ ml = -1 \/ ml = 0 \/ ml = 1 \/ ml = 2))) by lia.
    repeat match goal with
           | H : _ \/ _ |- _ => destruct H
           | H : _ /\ _ |- _ => destruct H
           end; subst; discriminate Hd.
Qed.

(** X1. Away from the two ends of the range of [int], and with a window, the
    program ends in one of three ways, decided by the triple alone: the
    "not allowed" message for a physically invalid triple, the "not yet
    supported" message for a valid triple with [n > 3], and the two arrays
    for every valid triple with [n <= 3]. *)
Theorem main_outcome (n l ml : Z) :
  Int32.in_range n ->
  Int32.min_signed < l < Int32.max_signed ->
  Int32.min_signed < ml <= Int32.max_signed ->
  (main true n l ml = NotAllowed <-> physically_invalid n l ml) /\
  (main true n l ml = NotSupported <->
   ~ physically_invalid n l ml /\ 3 < n) /\
  ((exists o, main true n l ml
              = Rendered o (allSpheres_VertexArr o) allSpheres_IndicesArr) <->
   ~ physically_invalid n l ml /\ n <= 3).
Proof.
  intros Hn Hl Hml.
  pose proof (not_allowed_iff n l ml Hn Hl Hml) as Hna.
  unfold main. cbn [negb].
  destruct (not_allowed n l ml) eqn:E.
  - assert (Hinv : physically_invalid n l ml) by now apply Hna.
    split; [tauto|]. split.
    + split; [discriminate | tauto].
    + split; [intros [o Ho]; discriminate | tauto].
  - assert (Hval : ~ physically_invalid n l ml)
      by (intros H; apply Hna in H; discriminate).
    pose proof (dispatch_valid_triple n l ml Hval) as Hd.
    destruct (dispatch n l ml) as [o|] eqn:Ed.
    + assert (Hn3 : n <= 3).
      { destruct (Z_lt_le_dec 3 n) as [H | H]; [|exact H].
        apply Hd in H. discriminate. }
      split; [split; [discriminate | tauto]|]. split.
      * split; [discriminate | lia].
      * split; [tauto | intros _; exists o; reflexivity].
    + assert (Hn3 : 3 < n) by now apply Hd.
      split; [split; [discriminate | tauto]|]. split.
      * tauto.
      * split; [intros [o Ho]; discriminate | lia].
Qed.

Lemma main_outcome_witness :
  (Int32.in_range 4 /\ Int32.min_signed < 3 < Int32.max_signed /\
   Int32.min_signed < -2 <= Int32.max_signed) /\
  (main true 4 3 (-2) = NotSupported <->
   ~ physically_invalid 4 3 (-2) /\ 3 < 4).
Proof.
  assert (H1 : Int32.in_range 4)
    by (vm_compute; split; discriminate).
  assert (H2 : Int32.min_signed < 3 < Int32.max_signed)
    by (vm_compute; split; reflexivity).
  assert (H3 : Int32.min_signed < -2 <= Int32.max_signed)
    by (vm_compute; split; [reflexivity | discriminate]).
  split; [tauto|].
  apply (main_outcome 4 3 (-2) H1 H2 H3).
Defined.


(** ** The triangles *)

(** The triangles of one sphere, read three indices at a time: the three
    vertices differ, they lie on two consecutive stacks [s] and [s+1] and on
    two neighbouring sectors [t] and [t+1] with [t <= 8], so that no
    triangle crosses the seam. *)
Lemma local_triangles (T : Z) :
  0 <= T < 144 ->
  let a := vec_at 0 singleSphere_IndicesVec (3 * T) in
  let b := vec_at 0 singleSphere_IndicesVec (3 * T + 1) in
  let c := vec_at 0 singleSphere_IndicesVec (3 * T + 2) in
  a <> b /\ b <> c /\ a <> c /\
  exists s t, 0 <= s <= 8 /\ 0 <= t <= 8 /\
    (a / 10 = s \/ a / 10 = s + 1) /\ (b / 10 = s \/ b / 10 = s + 1) /\
    (c / 10 = s \/ c / 10 = s + 1) /\
    (a mod 10 = t \/ a mod 10 = t + 1) /\ (b mod 10 = t \/ b mod 10 = t + 1) /\
    (c mod 10 = t \/ c mod 10 = t + 1).
Proof.
  intros HT. cbv zeta.
  set (ok := fun T =>
    let a := vec_at 0 singleSphere_IndicesVec (3 * T) in
    let b := vec_at 0 singleSphere_IndicesVec (3 * T + 1) in
    let c := vec_at 0 singleSphere_IndicesVec (3 * T + 2) in
    let s := Z.min (a / 10) (Z.min (b / 10) (c / 10)) in
    let t := Z.min (a mod 10) (Z.min (b mod 10) (c mod 10)) in
    negb (a =? b) && negb (b =? c) && negb (a =? c) &&
    (0 <=? s) && (s <=? 8) && (0 <=? t) && (t <=? 8) &&
    ((a / 10 =? s) || (a / 10 =? s + 1)) &&
    ((b / 10 =? s) || (b / 10 =? s + 1)) &&
    ((c / 10 =? s) || (c / 10 =? s + 1)) &&
    ((a mod 10 =? t) || (a mod 10 =? t + 1)) &&
    ((b mod 10 =? t) || (b mod 10 =? t + 1)) &&
    ((c mod 10 =? t) || (c mod 10 =? t + 1))).
  assert (Hall : forallb ok (upto 144) = true) by (vm_compute; reflexivity).
  rewrite forallb_forall in Hall.
  specialize (Hall T (proj2 (in_upto 144 T) HT)). unfold ok in Hall.
  cbv zeta in Hall.
  set (a := vec_at 0 singleSphere_IndicesVec (3 * T)) in *.
  set (b := vec_at 0 singleSphere_IndicesVec (3 * T + 1)) in *.
  set (c := vec_at 0 singleSphere_IndicesVec (3 * T + 2)) in *.
  set (s := Z.min (a / 10) (Z.min (b / 10) (c / 10))) in *.
  set (t := Z.min (a mod 10) (Z.min (b mod 10) (c mod 10))) in *.
  repeat (apply andb_prop in Hall; destruct Hall as [Hall ?]).
  repeat match goal with
         | H : negb (_ =? _) = true |- _ =>
             apply negb_true_iff, Z.eqb_neq in H
         | H : (_ <=? _) = true |- _ => apply Z.leb_le in H
         | H : (_ || _) = true |- _ => apply orb_prop in H
         | H : (_ =? _) = true \/ (_ =? _) = true |- _ =>
             rewrite !Z.eqb_eq in H
         end.
  split; [assumption|]. split; [assumption|]. split; [assumption|].
  exists s, t. repeat match goal with |- _ /\ _ => split end; assumption.
Qed.

Lemma local_vertices_range (v : Z) :
  In v singleSphere_IndicesVec -> 1 <= v <= 98.
Proof.
  intros Hin.
  assert (H : forallb (fun x => (1 <=? x) && (x <=? 98))
                singleSphere_IndicesVec = true) by (vm_compute; reflexivity).
  rewrite forallb_forall in H. specialize (H v Hin).
  apply andb_prop in H. destruct H as [H1 H2].
  apply Z.leb_le in H1, H2. lia.
Qed.

(** X4. The vertices used by the triangles of one sphere are the vertices 1
    to 98: the first vertex of the first stack and the last vertex of the
    last stack are generated but never drawn. *)
Theorem local_vertices_used (v : Z) :
  In v singleSphere_IndicesVec <-> 1 <= v <= 98.
Proof.
  split; [apply local_vertices_range|].
  intros Hv.
  assert (H : forallb (fun x => existsb (Z.eqb x) singleSphere_IndicesVec)
                (map (fun x => x + 1) (upto 98)) = true)
    by (vm_compute; reflexivity).
  rewrite forallb_forall in H.
  assert (Hin : In v (map (fun x => x + 1) (upto 98))).
  { apply in_map_iff. exists (v - 1). split; [lia|]. apply in_upto. lia. }
  specialize (H v Hin). apply existsb_exists in H.
  destruct H as (x & Hx & E). apply Z.eqb_eq in E. subst x. exact Hx.
Qed.

(** X5. In the index array of all spheres every triangle takes its three
    vertices, all different, among the vertices 1 to 98 of one and the same
    sphere, the sphere [q = T / 144]; within that sphere they lie on two
    consecutive stacks and two neighbouring sectors [t] and [t + 1] with
    [t <= 8], so that no triangle crosses the seam. *)
Theorem triangles_within_one_sphere (T : Z) :
  0 <= T < numSpheres * 144 ->
  let q := T / 144 in
  let a := vec_at 0 allSpheres_IndicesArr (3 * T) in
  let b := vec_at 0 allSpheres_IndicesArr (3 * T + 1) in
  let c := vec_at 0 allSpheres_IndicesArr (3 * T + 2) in
  0 <= q < numSpheres /\
  a <> b /\ b <> c /\ a <> c /\
  100 * q + 1 <= a <= 100 * q + 98 /\
  100 * q + 1 <= b <= 100 * q + 98 /\
  100 * q + 1 <= c <= 100 * q + 98 /\
  exists s t, 0 <= s <= 8 /\ 0 <= t <= 8 /\
    ((a - 100 * q) / 10 = s \/ (a - 100 * q) / 10 = s + 1) /\
    ((b - 100 * q) / 10 = s \/ (b - 100 * q) / 10 = s + 1) /\
    ((c - 100 * q) / 10 = s \/ (c - 100 * q) / 10 = s + 1) /\
    ((a - 100 * q) mod 10 = t \/ (a - 100 * q) mod 10 = t + 1) /\
    ((b - 100 * q) mod 10 = t \/ (b - 100 * q) mod 10 = t + 1) /\
    ((c - 100 * q) mod 10 = t \/ (c - 100 * q) mod 10 = t + 1).
Proof.
  intros HT. cbv zeta. change numSpheres with 1331 in *.
  assert (Hq : 0 <= T / 144 < 1331)
    by (split; [apply Z.div_pos; lia | apply Z.div_lt_upper_bound; lia]).
  assert (Hr : 0 <= T mod 144 < 144) by (apply Z.mod_pos_bound; lia).
  assert (Hat : forall e, 0 <= e < 3 ->
            vec_at 0 allSpheres_IndicesArr (3 * T + e)
            = vec_at 0 singleSphere_IndicesVec (3 * (T mod 144) + e)
              + 100 * (T / 144)).
  { intros e He.
    rewrite allSpheres_IndicesArr_at by (change numSpheres with 1331; lia).
    replace ((3 * T + e) mod 432) with (3 * (T mod 144) + e)
      by (Z.div_mod_to_equations; lia).
    replace ((3 * T + e) / 432) with (T / 144)
      by (Z.div_mod_to_equations; lia).
    reflexivity. }
  pose proof (Hat 0 ltac:(lia)) as H0. rewrite !Z.add_0_r in H0.
  pose proof (Hat 1 ltac:(lia)) as H1.
  pose proof (Hat 2 ltac:(lia)) as H2.
  rewrite H0, H1, H2.
  pose proof (local_triangles (T mod 144) Hr) as Hloc. cbv zeta in Hloc.
  destruct Hloc as (Hab & Hbc & Hac & s & t & Hst).
  assert (Hin : forall e, 0 <= e < 3 ->
            1 <= vec_at 0 singleSphere_IndicesVec (3 * (T mod 144) + e) <= 98).
  { intros e He. apply local_vertices_range, vec_at_in.
    rewrite singleSphere_IndicesVec_size. lia. }
  pose proof (Hin 0 ltac:(lia)) as I0. rewrite Z.add_0_r in I0.
  pose proof (Hin 1 ltac:(lia)) as I1.
  pose proof (Hin 2 ltac:(lia)) as I2.
  split; [lia|]. split; [lia|]. split; [lia|]. split; [lia|].
  split; [lia|]. split; [lia|]. split; [lia|].
  exists s, t.
  replace (vec_at 0 singleSphere_IndicesVec (3 * (T mod 144))
           + 100 * (T / 144) - 100 * (T / 144))
    with (vec_at 0 singleSphere_IndicesVec (3 * (T mod 144))) by ring.
  replace (vec_at 0 singleSphere_IndicesVec (3 * (T mod 144) + 1)
           + 100 * (T / 144) - 100 * (T / 144))
    with (vec_at 0 singleSphere_IndicesVec (3 * (T mod 144) + 1)) by ring.
  replace (vec_at 0 singleSphere_IndicesVec (3 * (T mod 144) + 2)
           + 100 * (T / 144) - 100 * (T / 144))
    with (vec_at 0 singleSphere_IndicesVec (3 * (T mod 144) + 2)) by ring.
  exact Hst.
Qed.

Lemma triangles_within_one_sphere_witness :
  0 <= 1000 < numSpheres * 144 /\
  vec_at 0 allSpheres_IndicesArr (3 * 1000)
  <> vec_at 0 allSpheres_IndicesArr (3 * 1000 + 1).
Proof.
  split; [vm_compute; split; [discriminate | reflexivity]|].
  apply (triangles_within_one_sphere 1000).
  vm_compute; split; [discriminate | reflexivity].
Defined.

(** X6. Every index of the index array addresses a whole record of eleven
    values inside the vertex array of the same run. *)
Theorem indices_address_vertex_array (o : Orbital) (p : Z) :
  0 <= p < size allSpheres_IndicesArr ->
  let index := vec_at 0 allSpheres_IndicesArr p in
  0 <= 11 * index /\ 11 * index + 10 < size (allSpheres_VertexArr o).
Proof.
  rewrite allSpheres_IndicesArr_size, allSpheres_VertexArr_length.
  intros Hp. cbv zeta. rewrite allSpheres_IndicesArr_at by exact Hp.
  change numSpheres with 1331 in Hp.
  assert (Hq : 0 <= p / 432 < 1331)
    by (split; [apply Z.div_pos; lia | apply Z.div_lt_upper_bound; lia]).
  pose proof (singleSphere_IndicesVec_at_bounds (p mod 432)
                (Z.mod_pos_bound p 432 ltac:(lia))) as Hloc.
  lia.
Qed.

Lemma indices_address_vertex_array_witness :
  0 <= 574991 < size allSpheres_IndicesArr /\
  11 * vec_at 0 allSpheres_IndicesArr 574991 + 10
  < size (allSpheres_VertexArr O322).
Proof.
  assert (H : 0 <= 574991 < size allSpheres_IndicesArr)
    by (rewrite allSpheres_IndicesArr_size; vm_compute;
        split; [discriminate | reflexivity]).
  split; [exact H|].
  apply (indices_address_vertex_array O322 574991 H).
Defined.

(** ** The records of the vertex array *)

(** X7. The layout of the vertex array, as the four attribute pointers of the
    sphere buffer read it (stride 11, offsets 0, 3, 6 and 8): the vertex [v]
    of the cell [(i, j, k)] has the number
    [g = ((i * 11 + j) * 11 + k) * 100 + v]; its position is at [11 g], the
    colour of its cell at [11 g + 3], two zero texture coordinates at
    [11 g + 6] and its normal at [11 g + 8]. *)
Theorem vertex_array_layout (o : Orbital) (i j k v : Z) :
  0 <= i < 11 -> 0 <= j < 11 -> 0 <= k < 11 -> 0 <= v < 100 ->
  let g := ((i * 11 + j) * 11 + k) * 100 + v in
  let i_local := v / (sectorCount + 1) in
  let j_local := v mod (sectorCount + 1) in
  let d := probDensity o (coord i) (coord j) (coord k) in
  let rad := sphereRadius o d in
  let arr := allSpheres_VertexArr o in
  (vec_at 0%R arr (11 * g) = x_local rad i_local j_local + coord i /\
   vec_at 0%R arr (11 * g + 1) = y_local rad i_local j_local + coord j /\
   vec_at 0%R arr (11 * g + 2) = z_local rad i_local + coord k)%R /\
  (vec_at 0%R arr (11 * g + 3) = sphereColor_red o d /\
   vec_at 0%R arr (11 * g + 4) = sphereColor_green o d /\
   vec_at 0%R arr (11 * g + 5) = 0.2%R) /\
  (vec_at 0%R arr (11 * g + 6) = 0%R /\ vec_at 0%R arr (11 * g + 7) = 0%R) /\
  (vec_at 0%R arr (11 * g + 8) = x_local rad i_local j_local * (1 / rad) /\
   vec_at 0%R arr (11 * g + 9) = y_local rad i_local j_local * (1 / rad) /\
   vec_at 0%R arr (11 * g + 10) = z_local rad i_local * (1 / rad))%R.
Proof.
  intros Hi Hj Hk Hv. cbv zeta.
  set (d := probDensity o (coord i) (coord j) (coord k)).
  set (rad := sphereRadius o d).
  assert (Hat : forall e, 0 <= e < 11 ->
            vec_at 0%R (allSpheres_VertexArr o)
                   (11 * (((i * 11 + j) * 11 + k) * 100 + v) + e)
            = vec_at 0%R
                (completeSphereVertexVec
                   (sphereVertices (coord i) (coord j) (coord k) rad)
                   (sphereNormals rad) (sphereColor_red o d)
                   (sphereColor_green o d) (sphereColor_blue o d))
                (11 * v + e)).
  { intros e He.
    replace (11 * (((i * 11 + j) * 11 + k) * 100 + v) + e)
      with (((i * 11 + j) * 11 + k) * 1100 + (11 * v + e)) by ring.
    rewrite allSpheres_VertexArr_at by lia. reflexivity. }
  pose proof (stored_vertex_fields (coord i) (coord j) (coord k) rad
                (sphereColor_red o d) (sphereColor_green o d)
                (sphereColor_blue o d) v Hv) as HF.
  cbv zeta in HF.
  destruct HF as ((F0 & F1 & F2) & (F3 & F4 & F5) & (F6 & F7) &
                  (F8 & F9 & F10)).
  rewrite <- (Z.add_0_r (11 * (((i * 11 + j) * 11 + k) * 100 + v))) at 1.
  rewrite !Hat by lia. rewrite Z.add_0_r.
  rewrite F0, F1, F2, F3, F4, F5, F6, F7, F8, F9, F10.
  unfold sphereColor_blue.
  repeat match goal with |- _ /\ _ => split end; try reflexivity; lra.
Qed.

Lemma vertex_array_layout_witness :
  (0 <= 10 < 11 /\ 0 <= 10 < 11 /\ 0 <= 10 < 11 /\ 0 <= 99 < 100) /\
  vec_at 0%R (allSpheres_VertexArr O300)
         (11 * (((10 * 11 + 10) * 11 + 10) * 100 + 99) + 6) = 0%R.
Proof.
  split; [lia|].
  pose proof (vertex_array_layout O300 10 10 10 99
                ltac:(lia) ltac:(lia) ltac:(lia) ltac:(lia)) as H.
  cbv zeta in H. destruct H as (_ & _ & (H6 & _) & _). exact H6.
Defined.

(** ** The shape of one sphere *)

Lemma sectorAngle_first_last :
  sectorAngle 0 = 0%R /\ sectorAngle sectorCount = (2 * PI)%R.
Proof.
  unfold sectorAngle, sectorStep, sectorCount. split; [lra | field].
Qed.

Lemma stackAngle_first_last :
  stackAngle 0 = (PI / 2)%R /\ stackAngle stackCount = (- (PI / 2))%R.
Proof.
  unfold stackAngle, stackStep, stackCount. split; [lra | field].
Qed.

(** X9. Each ring is closed by a vertex that repeats its first vertex: in every
    stack the vertices of the sectors 0 and [sectorCount] have the same
    position and the same normal. *)
Theorem seam_vertices_coincide (x y z rad : R) (i_local t : Z) :
  0 <= i_local <= stackCount -> 0 <= t < 3 ->
  let first := i_local * (sectorCount + 1) in
  let last := i_local * (sectorCount + 1) + sectorCount in
  vec_at 0%R (sphereVertices x y z rad) (3 * first + t)
  = vec_at 0%R (sphereVertices x y z rad) (3 * last + t) /\
  vec_at 0%R (sphereNormals rad) (3 * first + t)
  = vec_at 0%R (sphereNormals rad) (3 * last + t).
Proof.
  intros Hi Ht. cbv zeta.
  pose proof (sphereVertices_at x y z rad i_local 0 Hi
                ltac:(unfold sectorCount; lia) t Ht) as HV0.
  pose proof (sphereVertices_at x y z rad i_local sectorCount Hi
                ltac:(unfold sectorCount; lia) t Ht) as HV9.
  pose proof (sphereNormals_at rad i_local 0 Hi
                ltac:(unfold sectorCount; lia) t Ht) as HN0.
  pose proof (sphereNormals_at rad i_local sectorCount Hi
                ltac:(unfold sectorCount; lia) t Ht) as HN9.
  cbv zeta in HV0, HV9, HN0, HN9. rewrite Z.add_0_r in HV0, HN0.
  rewrite HV0, HV9, HN0, HN9.
  assert (Ex : x_local rad i_local 0 = x_local rad i_local sectorCount).
  { unfold x_local. destruct sectorAngle_first_last as [-> ->].
    now rewrite cos_0, cos_2PI. }
  assert (Ey : y_local rad i_local 0 = y_local rad i_local sectorCount).
  { unfold y_local. destruct sectorAngle_first_last as [-> ->].
    now rewrite sin_0, sin_2PI. }
  now rewrite Ex, Ey.
Qed.

Lemma seam_vertices_coincide_witness :
  (0 <= 4 <= stackCount /\ 0 <= 1 < 3) /\
  vec_at 0%R (sphereVertices 1 2 3 4) (3 * (4 * (sectorCount + 1)) + 1)
  = vec_at 0%R (sphereVertices 1 2 3 4)
      (3 * (4 * (sectorCount + 1) + sectorCount) + 1).
Proof.
  assert (H : 0 <= 4 <= stackCount) by (vm_compute; split; discriminate).
  split; [split; [exact H | lia]|].
  apply (seam_vertices_coincide 1 2 3 4 4 1 H); lia.
Defined.

(** X10. The first and the last stack are the two poles: the ten vertices of
    stack 0 all lie at the centre plus [(0, 0, rad)] and the ten vertices of
    stack [stackCount] at the centre minus [(0, 0, rad)]. *)
Theorem pole_vertices (x y z rad : R) (j_local : Z) :
  0 <= j_local <= sectorCount ->
  let north := j_local in
  let south := stackCount * (sectorCount + 1) + j_local in
  let V := sphereVertices x y z rad in
  (vec_at 0%R V (3 * north) = x /\ vec_at 0%R V (3 * north + 1) = y /\
   vec_at 0%R V (3 * north + 2) = (z + rad)%R) /\
  (vec_at 0%R V (3 * south) = x /\ vec_at 0%R V (3 * south + 1) = y /\
   vec_at 0%R V (3 * south + 2) = (z - rad)%R).
Proof.
  intros Hj. cbv zeta.
  pose proof (sphereVertices_at x y z rad 0 j_local
                ltac:(unfold stackCount; lia) Hj) as HN.
  pose proof (sphereVertices_at x y z rad stackCount j_local
                ltac:(unfold stackCount; lia) Hj) as HS.
  cbv zeta in HN, HS. rewrite Z.mul_0_l, Z.add_0_l in HN.
  pose proof (HN 0 ltac:(lia)) as N0. pose proof (HN 1 ltac:(lia)) as N1.
  pose proof (HN 2 ltac:(lia)) as N2. pose proof (HS 0 ltac:(lia)) as S0.
  pose proof (HS 1 ltac:(lia)) as S1. pose proof (HS 2 ltac:(lia)) as S2.
  rewrite Z.add_0_r in N0, S0. rewrite N0, N1, N2, S0, S1, S2.
  unfold vec_at. simpl nth.
  unfold x_local, y_local, xy_local, z_local.
  destruct stackAngle_first_last as [-> ->].
  rewrite cos_neg, sin_neg, cos_PI2, sin_PI2.
  repeat match goal with |- _ /\ _ => split end; ring.
Qed.

Lemma pole_vertices_witness :
  0 <= 3 <= sectorCount /\
  vec_at 0%R (sphereVertices 1 2 3 4) (3 * 3 + 2) = (3 + 4)%R.
Proof.
  assert (H : 0 <= 3 <= sectorCount) by (vm_compute; split; discriminate).
  split; [exact H|].
  apply (pole_vertices 1 2 3 4 3 H).
Defined.

(** ** The interleaving loop on any input *)



(** ** The spherical coordinates of a point *)

Local Open Scope R_scope.

Lemma r_of_square (x y z : R) :
  0 <= x * x + y * y + z * z /\
  r_of x y z * r_of x y z = x * x + y * y + z * z.
Proof.
  assert (H : 0 <= x * x + y * y + z * z) by nra.
  split; [exact H | now apply sqrt_sqrt].
Qed.

Lemma r_of_pos (x y z : R) : 0 < x * x + y * y + z * z -> 0 < r_of x y z.
Proof. intros H. now apply sqrt_lt_R0. Qed.

(** The quotient handed to [acos] is within [-1, 1] away from the origin. *)
Lemma theta_quotient_bounds (x y z : R) :
  0 < x * x + y * y + z * z -> -1 <= z / r_of x y z <= 1.
Proof.
  intros H. pose proof (r_of_pos x y z H) as Hr.
  destruct (r_of_square x y z) as [_ Hsq].
  assert (Hz : - r_of x y z <= z <= r_of x y z) by nra.
  split.
  - apply Rmult_le_reg_r with (r_of x y z); [exact Hr|].
    unfold Rdiv. rewrite Rmult_assoc, Rinv_l by lra. lra.
  - apply Rmult_le_reg_r with (r_of x y z); [exact Hr|].
    unfold Rdiv. rewrite Rmult_assoc, Rinv_l by lra. lra.
Qed.

(** The angle of [atan2] is the polar angle of the point [(x, y)]. *)
Lemma atan2_polar (x y : R) :
  sqrt (x * x + y * y) * cos (atan2 y x) = x /\
  sqrt (x * x + y * y) * sin (atan2 y x) = y.
Proof.
  assert (Hpos : forall t : R, 0 < sqrt (1 + t²)).
  { intros t. apply sqrt_lt_R0. unfold Rsqr. nra. }
  assert (Hrho : forall a : R, 0 < a ->
            sqrt (a * a + y * y) = a * sqrt (1 + (y / a)²)).
  { intros a Ha.
    replace (a * a + y * y) with ((a * a) * (1 + (y / a)²))
      by (unfold Rsqr; field; lra).
    rewrite sqrt_mult by (unfold Rsqr; nra).
    now rewrite sqrt_square by lra. }
  unfold atan2.
  destruct (Rlt_dec 0 x) as [Hx | Hx].
  - rewrite cos_atan, sin_atan, (Hrho x Hx).
    specialize (Hpos (y / x)). split; field; lra.
  - destruct (Rlt_dec x 0) as [Hx' | Hx'].
    + assert (Hr : sqrt (x * x + y * y) = - x * sqrt (1 + (y / x)²)).
      { replace (x * x) with (- x * - x) by ring.
        rewrite (Hrho (- x)) by lra.
        replace (y / - x) with (- (y / x)) by (field; lra).
        now rewrite <- Rsqr_neg. }
      specialize (Hpos (y / x)).
      destruct (Rle_dec 0 y) as [Hy | Hy].
      * rewrite neg_cos, neg_sin, cos_atan, sin_atan, Hr. split; field; lra.
      * replace (atan (y / x) - PI) with (- (PI - atan (y / x))) by ring.
        rewrite cos_neg, sin_neg.
        replace (PI - atan (y / x)) with (- atan (y / x) + PI) by ring.
        rewrite neg_cos, neg_sin, cos_neg, sin_neg, cos_atan, sin_atan, Hr.
        split; field; lra.
    + assert (E : x = 0) by lra. subst x.
      replace (0 * 0 + y * y) with (y * y) by ring.
      destruct (Rlt_dec 0 y) as [Hy | Hy].
      * rewrite sqrt_square, cos_PI2, sin_PI2 by lra. split; ring.
      * destruct (Rlt_dec y 0) as [Hy' | Hy'].
        -- replace (y * y) with (- y * - y) by ring.
           rewrite sqrt_square by lra.
           replace (- PI / 2) with (- (PI / 2)) by field.
           rewrite cos_neg, sin_neg, cos_PI2, sin_PI2. split; ring.
        -- assert (E : y = 0) by lra. subst y.
           replace (0 * 0) with 0 by ring. rewrite sqrt_0. split; ring.
Qed.

Lemma r_sin_theta (x y z : R) :
  0 < x * x + y * y + z * z ->
  r_of x y z * sin (theta_of x y z) = sqrt (x * x + y * y).
Proof.
  intros H.
  pose proof (r_of_pos x y z H) as Hr.
  destruct (r_of_square x y z) as [_ Hsq].
  pose proof (theta_quotient_bounds x y z H) as Hq.
  assert (Et : theta_of x y z = acos (z / r_of x y z)) by reflexivity.
  rewrite Et, sin_acos by exact Hq.
  rewrite <- (sqrt_square (r_of x y z)) at 1 by lra.
  rewrite <- sqrt_mult_alt by nra. f_equal. unfold Rsqr.
  transitivity (r_of x y z * r_of x y z - z * z); [field; lra|].
  rewrite Hsq. ring.
Qed.

(** X11. [r_of], [theta_of] and [phi_of] are the spherical coordinates of the
    point: away from the origin the radius is positive, the polar angle is
    in [0, pi], and the point is recovered as
    (r sin(theta) cos(phi), r sin(theta) sin(phi), r cos(theta)). *)
Theorem spherical_coordinates (x y z : R) :
  0 < x * x + y * y + z * z ->
  let r := r_of x y z in
  let theta := theta_of x y z in
  let phi := phi_of x y z in
  0 < r /\ 0 <= theta <= PI /\
  r * sin theta = sqrt (x * x + y * y) /\
  x = r * sin theta * cos phi /\
  y = r * sin theta * sin phi /\
  z = r * cos theta.
Proof.
  intros H. cbv zeta.
  pose proof (r_of_pos x y z H) as Hr.
  pose proof (theta_quotient_bounds x y z H) as Hq.
  assert (Et : theta_of x y z = acos (z / r_of x y z)) by reflexivity.
  pose proof (r_sin_theta x y z H) as Hsin.
  destruct (atan2_polar x y) as [Hx Hy].
  split; [exact Hr|]. split; [rewrite Et; apply acos_bound|].
  split; [exact Hsin|]. unfold phi_of.
  split; [now rewrite Hsin, Hx|]. split; [now rewrite Hsin, Hy|].
  rewrite Et, cos_acos by exact Hq. field. lra.
Qed.

Lemma spherical_coordinates_witness :
  0 < 3 * 3 + 4 * 4 + 12 * 12 /\
  12 = r_of 3 4 12 * cos (theta_of 3 4 12).
Proof.
  assert (H : 0 < 3 * 3 + 4 * 4 + 12 * 12) by lra.
  split; [exact H|].
  apply (spherical_coordinates 3 4 12 H).
Defined.

(** ** Symmetries of the densities *)

(** None of the ten functions reads [phi]: the density of a cell is decided
    by [r] and [theta]. *)
Lemma probDensity_r_theta (o : Orbital) (x y z x' y' z' : R) :
  r_of x y z = r_of x' y' z' -> theta_of x y z = theta_of x' y' z' ->
  probDensity o x y z = probDensity o x' y' z'.
Proof.
  intros Hr Ht. unfold probDensity. cbv zeta. rewrite Hr, Ht.
  destruct o; reflexivity.
Qed.

Lemma cos_PI_minus (a : R) : cos (PI - a) = - cos a.
Proof. rewrite cos_minus, cos_PI, sin_PI. ring. Qed.

Lemma sin_PI_minus (a : R) : sin (PI - a) = sin a.
Proof. rewrite sin_minus, cos_PI, sin_PI. ring. Qed.

Lemma probDensity_axial (o : Orbital) (x y z x' y' : R) :
  x * x + y * y = x' * x' + y' * y' ->
  probDensity o x y z = probDensity o x' y' z.
Proof.
  intros H.
  apply probDensity_r_theta; unfold theta_of, r_of; cbv zeta; now rewrite H.
Qed.

Lemma probDensity_mirror (o : Orbital) (x y z : R) :
  probDensity o x y (- z) = probDensity o x y z.
Proof.
  assert (Hr : r_of x y (- z) = r_of x y z).
  { unfold r_of. f_equal. ring. }
  assert (Ht : theta_of x y (- z) = PI - theta_of x y z).
  { unfold theta_of. cbv zeta.
    replace (x * x + y * y + - z * - z) with (x * x + y * y + z * z) by ring.
    replace (- z / sqrt (x * x + y * y + z * z))
      with (- (z / sqrt (x * x + y * y + z * z)))
      by (unfold Rdiv; ring).
    apply acos_opp. }
  unfold probDensity. cbv zeta. rewrite Hr, Ht.
  destruct o;
    unfold _100_eq, _200_eq, _210_eq, _211_eq, _300_eq, _310_eq, _311_eq,
      _320_eq, _321_eq, _322_eq; cbv zeta;
    rewrite ?cos_PI_minus, ?sin_PI_minus; ring.
Qed.

(** X12. Every density is symmetric about the z axis (it is the same at two
    points of equal height and equal distance to the axis) and under the
    reflection in the plane z = 0. *)
Theorem density_symmetries (o : Orbital) (x y z x' y' : R) :
  x * x + y * y = x' * x' + y' * y' ->
  probDensity o x y z = probDensity o x' y' z /\
  probDensity o x y (- z) = probDensity o x y z.
Proof.
  intros H. split; [now apply probDensity_axial | apply probDensity_mirror].
Qed.

Lemma density_symmetries_witness :
  3 * 3 + 4 * 4 = 5 * 5 + 0 * 0 /\
  probDensity O321 3 4 2 = probDensity O321 5 0 2.
Proof.
  assert (H : 3 * 3 + 4 * 4 = 5 * 5 + 0 * 0) by lra.
  split; [exact H|].
  apply (density_symmetries O321 3 4 2 5 0 H).
Defined.

Lemma coord_reflect (i : Z) : coord (10 - i) = - coord i.
Proof. rewrite !coord_value, minus_IZR. lra. Qed.

(** X13. The picture is symmetric: the cell [(i, j, k)] has the same density,
    hence the same radius and colour, as its mirror images in the three
    coordinate planes and as the cell with [i] and [j] exchanged. *)
Theorem grid_reflections (o : Orbital) (i j k : Z) :
  let d := probDensity o (coord i) (coord j) (coord k) in
  probDensity o (coord (10 - i)) (coord j) (coord k) = d /\
  probDensity o (coord i) (coord (10 - j)) (coord k) = d /\
  probDensity o (coord i) (coord j) (coord (10 - k)) = d /\
  probDensity o (coord j) (coord i) (coord k) = d.
Proof.
  cbv zeta. rewrite !coord_reflect.
  set (x := coord i). set (y := coord j). set (z := coord k).
  split; [apply probDensity_axial; ring|].
  split; [apply probDensity_axial; ring|].
  split; [apply probDensity_mirror|].
  apply probDensity_axial; ring.
Qed.

(** X14. The three s orbitals are spherically symmetric: their density is the
    same at two points at the same distance from the origin. *)
Theorem s_orbitals_spherical (x y z x' y' z' : R) :
  r_of x y z = r_of x' y' z' ->
  probDensity O100 x y z = probDensity O100 x' y' z' /\
  probDensity O200 x y z = probDensity O200 x' y' z' /\
  probDensity O300 x y z = probDensity O300 x' y' z'.
Proof.
  intros Hr. unfold probDensity. cbv zeta. rewrite Hr.
  repeat split.
Qed.

Lemma s_orbitals_spherical_witness :
  r_of 3 4 0 = r_of 0 0 5 /\
  probDensity O200 3 4 0 = probDensity O200 0 0 5.
Proof.
  assert (H : r_of 3 4 0 = r_of 0 0 5).
  { unfold r_of. f_equal. lra. }
  split; [exact H|].
  apply (s_orbitals_spherical 3 4 0 0 0 5 H).
Defined.

(** ** The ground state *)

Lemma PI_bounds : 8 / 3 <= PI < 322 / 100.
Proof.
  pose proof (PI_ineq 0) as [Hlow _]. pose proof (PI_ineq 6) as [_ Hup].
  unfold sum_f_R0, tg_alt, PI_tg in Hlow, Hup.
  cbn [Nat.mul Nat.add pow INR] in Hlow, Hup. lra.
Qed.

Lemma _100_eq_closed_form (r theta phi : R) :
  _100_eq r theta phi = exp (- (2 * r)) / PI.
Proof.
  unfold _100_eq. cbn [powerRZ].
  assert (HPI : 0 < PI) by apply PI_RGT_0.
  assert (Hs : 0 < sqrt PI) by now apply sqrt_lt_R0.
  assert (Hq : sqrt PI * sqrt PI = PI) by (apply sqrt_sqrt; lra).
  replace (- (2 * r)) with (- r + - r) by ring. rewrite exp_plus.
  replace 1.0 with 1 by lra. rewrite <- Hq at 2. field. lra.
Qed.

(** X15. The density of the orbital (1,0,0) decreases with [r] and is greatest
    at [r = 0], where it is 1/pi: more than the 0.31 by which the program
    divides it. *)
Theorem ground_state_maximum (r1 r2 theta phi : R) :
  0 <= r1 <= r2 ->
  _100_eq r2 theta phi <= _100_eq r1 theta phi /\
  _100_eq r1 theta phi <= _100_eq 0 theta phi /\
  _100_eq 0 theta phi = 1 / PI /\ 0.31 < 1 / PI.
Proof.
  intros Hr. rewrite !_100_eq_closed_form.
  assert (HPI : 0 < PI) by apply PI_RGT_0.
  assert (Hmono : forall a b : R, a <= b ->
            exp (- (2 * b)) / PI <= exp (- (2 * a)) / PI).
  { intros a b Hab. apply Rmult_le_compat_r; [left; now apply Rinv_0_lt_compat|].
    destruct (Req_dec a b) as [-> | Hne]; [lra|].
    left. apply exp_increasing. lra. }
  split; [apply Hmono; lra|]. split; [apply Hmono; lra|].
  replace (- (2 * 0)) with 0 by ring. rewrite exp_0.
  split; [reflexivity|].
  pose proof PI_bounds as [_ Hup].
  apply Rmult_lt_reg_r with PI; [exact HPI|].
  unfold Rdiv. rewrite Rmult_assoc, Rinv_l by lra. lra.
Qed.

Lemma ground_state_maximum_witness :
  0 <= 1 <= 2 /\ _100_eq 2 0 0 <= _100_eq 1 0 0.
Proof.
  assert (H : 0 <= 1 <= 2) by lra.
  split; [exact H|].
  apply (ground_state_maximum 1 2 0 0 H).
Defined.

Lemma prod_eq_dec_555 (i j k : Z) :
  (i, j, k) = (5, 5, 5)%Z \/ (i, j, k) <> (5, 5, 5)%Z.
Proof.
  destruct (Z.eq_dec i 5) as [-> | Hi]; [|right; congruence].
  destruct (Z.eq_dec j 5) as [-> | Hj]; [|right; congruence].
  destruct (Z.eq_dec k 5) as [-> | Hk]; [left; reflexivity | right; congruence].
Qed.

(** A cell other than (5, 5, 5) is at the distance 1 at least from the
    origin. *)
Lemma r_of_cell (i j k : Z) :
  (i, j, k) <> (5, 5, 5)%Z -> 1 <= r_of (coord i) (coord j) (coord k).
Proof.
  intros Hne. unfold r_of. rewrite !coord_value.
  rewrite <- sqrt_1. apply sqrt_le_1_alt.
  replace (-5 + IZR i) with (IZR (i - 5)) by (rewrite minus_IZR; lra).
  replace (-5 + IZR j) with (IZR (j - 5)) by (rewrite minus_IZR; lra).
  replace (-5 + IZR k) with (IZR (k - 5)) by (rewrite minus_IZR; lra).
  rewrite <- !mult_IZR, <- !plus_IZR. apply IZR_le.
  assert (i <> 5 \/ j <> 5 \/ k <> 5)%Z.
  { destruct (Z.eq_dec i 5), (Z.eq_dec j 5), (Z.eq_dec k 5);
      try tauto. subst. now contradiction Hne. }
  assert (Hsq : forall a : Z, (0 <= a * a /\ (a <> 0 -> 1 <= a * a))%Z)
    by (intros a; nia).
  pose proof (Hsq (i - 5)%Z) as [? ?]. pose proof (Hsq (j - 5)%Z) as [? ?].
  pose proof (Hsq (k - 5)%Z) as [? ?]. lia.
Qed.

(** X16. For the orbital (1,0,0) the colour leaves [0, 1] at exactly one cell,
    the cell (5, 5, 5) of the nucleus: there the green is above 1 and the
    red below 0; everywhere else both are within [0, 1]. *)
Theorem ground_state_colour_range (i j k : Z) :
  let d := probDensity O100 (coord i) (coord j) (coord k) in
  (1 < sphereColor_green O100 d <-> (i, j, k) = (5, 5, 5)%Z) /\
  (sphereColor_red O100 d < 0 <-> (i, j, k) = (5, 5, 5)%Z) /\
  ((i, j, k) <> (5, 5, 5)%Z ->
   0 <= sphereColor_green O100 d <= 1 /\ 0 <= sphereColor_red O100 d <= 1).
Proof.
  cbv zeta. unfold sphereColor_green, sphereColor_red, probDensity.
  cbv zeta. rewrite _100_eq_closed_form.
  set (r := r_of (coord i) (coord j) (coord k)).
  pose proof PI_bounds as [Hlow Hup].
  assert (HPI : 0 < PI) by lra.
  set (e := exp (- (2 * (r / 5.0)))).
  assert (He : 0 < e) by apply exp_pos.
  assert (Hd : e / PI / 0.31 * (0.31 * PI) = e) by (field; lra).
  assert (Horigin : (i, j, k) = (5, 5, 5)%Z -> 1 < e / PI / 0.31).
  { intros E. injection E as -> -> ->.
    assert (Hr : r = 0).
    { unfold r, r_of. rewrite coord_value.
      replace (-5 + 5) with 0 by ring.
      replace (0 * 0 + 0 * 0 + 0 * 0) with 0 by ring. apply sqrt_0. }
    assert (Ee : e = 1).
    { unfold e. rewrite Hr. replace (- (2 * (0 / 5.0))) with 0 by lra.
      apply exp_0. }
    rewrite Ee in Hd. nra. }
  assert (Hother : (i, j, k) <> (5, 5, 5)%Z -> 0 <= e / PI / 0.31 <= 1).
  { intros Hne. pose proof (r_of_cell i j k Hne) as Hr. fold r in Hr.
    assert (Hinv : e * exp (2 * (r / 5.0)) = 1).
    { unfold e. rewrite <- exp_plus.
      replace (- (2 * (r / 5.0)) + 2 * (r / 5.0)) with 0 by ring.
      apply exp_0. }
    pose proof (exp_ineq1_le (2 * (r / 5.0))) as Hexp.
    assert (Hbig : 14 / 10 <= exp (2 * (r / 5.0))) by lra.
    assert (Hsmall : e <= 10 / 14) by nra.
    split; [|nra].
    apply Rmult_le_reg_r with (0.31 * PI); [lra|]. rewrite Hd. lra. }
  set (dq := e / PI) in *.
  destruct (prod_eq_dec_555 i j k) as [E | Hne].
  - specialize (Horigin E).
    split; [split; [intros _; exact E | intros _; lra]|].
    split; [split; [intros _; exact E | intros _; lra]|].
    intros Hne. now contradiction Hne.
  - specialize (Hother Hne).
    split; [split; [intros H; exfalso; lra | intros E; now contradiction Hne]|].
    split; [split; [intros H; exfalso; lra | intros E; now contradiction Hne]|].
    intros _. lra.
Qed.

Lemma ground_state_colour_range_witness :
  (5, 5, 6)%Z <> (5, 5, 5)%Z /\
  0 <= sphereColor_green O100
         (probDensity O100 (coord 5) (coord 5) (coord 6)) <= 1.
Proof.
  assert (H : (5, 5, 6)%Z <> (5, 5, 5)%Z) by discriminate.
  split; [exact H|].
  apply (proj2 (proj2 (ground_state_colour_range 5 5 6)) H).
Defined.

(** ** Where the densities vanish *)



Lemma probDensity_O200_zero (x y z : R) :
  probDensity O200 x y z = 0 <-> r_of x y z = 5.
Proof.
  unfold probDensity, _200_eq. cbv zeta.
  set (r := r_of x y z).
  assert (Hp : 0 < Rpower (2.0 * PI) 0.5) by apply exp_pos.
  assert (He : 0 < exp (- (r / 2.5) / 2)) by apply exp_pos.
  set (c := 1 / (1.0 * powerRZ 10 (-1)) * 1 / 8 / Rpower (2.0 * PI) 0.5).
  assert (Hc : 0 < c).
  { unfold c.
    apply Rdiv_lt_0_compat; [|exact Hp].
    apply Rdiv_lt_0_compat; [|lra].
    rewrite Rmult_1_r.
    apply Rdiv_lt_0_compat; [lra|].
    apply Rmult_lt_0_compat; [lra | apply powerRZ_lt; lra]. }
  split.
  - intros H. cbn [pow] in H. rewrite Rmult_1_r in H.
    assert (H' : c * (2 - r / 2.5) * exp (- (r / 2.5) / 2) = 0)
      by (apply Rmult_integral in H; tauto).
    apply Rmult_integral in H'. destruct H' as [H' | H']; [|lra].
    apply Rmult_integral in H'. destruct H' as [H' | H']; lra.
  - intros H. rewrite H. replace (2 - 5 / 2.5) with 0 by lra. ring.
Qed.



(** X18. For the orbital (2,0,0) a cell has the radius 0 exactly when it lies at
    the distance 5 from the nucleus, that is when the squares of its three
    integer offsets add up to 25; 30 cells of the grid do. *)
Theorem zero_radius_cells_2s (i j k : Z) :
  (sphereRadius O200 (probDensity O200 (coord i) (coord j) (coord k)) = 0 <->
   ((i - 5) * (i - 5) + (j - 5) * (j - 5) + (k - 5) * (k - 5) = 25)%Z) /\
  List.length
    (filter (fun '(i, j, k) =>
               ((i - 5) * (i - 5) + (j - 5) * (j - 5) + (k - 5) * (k - 5)
                =? 25)%Z) grid_cells) = 30%nat.
Proof.
  split; [|vm_compute; reflexivity].
  set (d := probDensity O200 (coord i) (coord j) (coord k)).
  assert (Hrad : sphereRadius O200 d = 0 <-> d = 0).
  { unfold sphereRadius. rewrite step_value. split; intros H; lra. }
  rewrite Hrad. unfold d. rewrite probDensity_O200_zero.
  unfold r_of. rewrite !coord_value.
  replace (-5 + IZR i) with (IZR (i - 5)) by (rewrite minus_IZR; lra).
  replace (-5 + IZR j) with (IZR (j - 5)) by (rewrite minus_IZR; lra).
  replace (-5 + IZR k) with (IZR (k - 5)) by (rewrite minus_IZR; lra).
  rewrite <- !mult_IZR, <- !plus_IZR.
  set (s := ((i - 5) * (i - 5) + (j - 5) * (j - 5) + (k - 5) * (k - 5))%Z).
  assert (Hs : (0 <= s)%Z).
  { unfold s. pose proof (Z.square_nonneg (i - 5)).
    pose proof (Z.square_nonneg (j - 5)). pose proof (Z.square_nonneg (k - 5)).
    lia. }
  split.
  - intros H. apply eq_IZR.
    apply sqrt_lem_0 in H; [|apply IZR_le; exact Hs | lra]. lra.
  - intros ->. apply sqrt_lem_1; lra.
Qed.

(** ** The argument of [acos] in single precision *)

Local Open Scope Z_scope.

(** X19. In single precision the sum of the three squares is computed exactly
    at every cell, and at every cell but (5, 5, 5) the quotient handed to
    [acos] is a number within [-1, 1]: NaN occurs at the cell of the
    nucleus only. *)
Theorem acos_argument_binary32 (i j k : Z) :
  0 <= i < 11 -> 0 <= j < 11 -> 0 <= k < 11 ->
  let x := Binary32.coord i in
  let y := Binary32.coord j in
  let z := Binary32.coord k in
  let q := Binary32.theta_of_quotient x y z in
  Binary32.add (Binary32.add (Binary32.mul x x) (Binary32.mul y y))
               (Binary32.mul z z)
  = Binary32.of_int ((i - 5) * (i - 5) + (j - 5) * (j - 5)
                     + (k - 5) * (k - 5)) /\
  (Binary32.is_nan q = true <-> (i, j, k) = (5, 5, 5)) /\
  ((i, j, k) <> (5, 5, 5) ->
   SFleb (Binary32.of_int (-1)) q = true /\
   SFleb q (Binary32.of_int 1) = true).
Proof.
  intros Hi Hj Hk. cbv zeta.
  set (q_ok := fun '(i, j, k) =>
    let q := Binary32.theta_of_quotient (Binary32.coord i)
               (Binary32.coord j) (Binary32.coord k) in
    if (i =? 5) && (j =? 5) && (k =? 5) then Binary32.is_nan q
    else negb (Binary32.is_nan q) && SFleb (Binary32.of_int (-1)) q
         && SFleb q (Binary32.of_int 1)).
  assert (Hq : forallb q_ok grid_cells = true) by (vm_compute; reflexivity).
  rewrite forallb_forall in Hq.
  specialize (Hq (i, j, k) (proj2 (in_grid_cells i j k) (conj Hi (conj Hj Hk)))).
  unfold q_ok in Hq. cbv zeta in Hq.
  set (q := Binary32.theta_of_quotient (Binary32.coord i)
              (Binary32.coord j) (Binary32.coord k)) in *.
  split.
  - assert (Hs : forall a, 0 <= a < 11 ->
              Binary32.mul (Binary32.coord a) (Binary32.coord a)
              = Binary32.of_int ((a - 5) * (a - 5))).
    { intros a Ha.
      assert (Hall : forallb (fun a =>
                match Binary32.mul (Binary32.coord a) (Binary32.coord a),
                      Binary32.of_int ((a - 5) * (a - 5)) with
                | S754_zero s1, S754_zero s2 => Bool.eqb s1 s2
                | S754_finite s1 m1 e1, S754_finite s2 m2 e2 =>
                    Bool.eqb s1 s2 && (m1 =? m2)%positive && (e1 =? e2)
                | _, _ => false
                end) (upto 11) = true) by (vm_compute; reflexivity).
      rewrite forallb_forall in Hall.
      specialize (Hall a (proj2 (in_upto 11 a) Ha)).
      destruct (Binary32.mul (Binary32.coord a) (Binary32.coord a))
        as [s1| | |s1 m1 e1],
        (Binary32.of_int ((a - 5) * (a - 5))) as [s2| | |s2 m2 e2];
        try discriminate.
      - apply Bool.eqb_prop in Hall. now subst.
      - apply andb_prop in Hall. destruct Hall as [Hall He].
        apply andb_prop in Hall. destruct Hall as [Hs Hm].
        apply Bool.eqb_prop in Hs. apply Pos.eqb_eq in Hm.
        apply Z.eqb_eq in He. now subst. }
    rewrite !Hs by assumption.
    assert (Hadd : forall a b, 0 <= a <= 50 -> 0 <= b <= 25 ->
              Binary32.add (Binary32.of_int a) (Binary32.of_int b)
              = Binary32.of_int (a + b)).
    { intros a b Ha Hb.
      assert (Hall : forallb (fun a => forallb (fun b =>
                match Binary32.add (Binary32.of_int a) (Binary32.of_int b),
                      Binary32.of_int (a + b) with
                | S754_zero s1, S754_zero s2 => Bool.eqb s1 s2
                | S754_finite s1 m1 e1, S754_finite s2 m2 e2 =>
                    Bool.eqb s1 s2 && (m1 =? m2)%positive && (e1 =? e2)
                | _, _ => false
                end) (upto 26)) (upto 51) = true) by (vm_compute; reflexivity).
      rewrite forallb_forall in Hall.
      specialize (Hall a (proj2 (in_upto 51 a) ltac:(lia))).
      rewrite forallb_forall in Hall.
      specialize (Hall b (proj2 (in_upto 26 b) ltac:(lia))).
      destruct (Binary32.add (Binary32.of_int a) (Binary32.of_int b))
        as [s1| | |s1 m1 e1],
        (Binary32.of_int (a + b)) as [s2| | |s2 m2 e2];
        try discriminate.
      - apply Bool.eqb_prop in Hall. now subst.
      - apply andb_prop in Hall. destruct Hall as [Hall He].
        apply andb_prop in Hall. destruct Hall as [Hs' Hm].
        apply Bool.eqb_prop in Hs'. apply Pos.eqb_eq in Hm.
        apply Z.eqb_eq in He. now subst. }
    assert (Hb : forall a, 0 <= a < 11 -> 0 <= (a - 5) * (a - 5) <= 25).
    { intros a Ha.
      assert (H : a = 0 \/ a = 1 \/ a = 2 \/ a = 3 \/ a = 4 \/ a = 5 \/
                  a = 6 \/ a = 7 \/ a = 8 \/ a = 9 \/ a = 10) by lia.
      repeat (destruct H as [-> | H]; [lia|]). subst a. lia. }
    pose proof (Hb i Hi). pose proof (Hb j Hj). pose proof (Hb k Hk).
    rewrite !Hadd by lia. reflexivity.
  - destruct ((i =? 5) && (j =? 5) && (k =? 5)) eqn:E.
    + apply andb_prop in E. destruct E as [E Ek].
      apply andb_prop in E. destruct E as [Ei Ej].
      apply Z.eqb_eq in Ei, Ej, Ek. subst.
      split; [split; [reflexivity | intros _; exact Hq]|].
      intros Hne. now contradiction Hne.
    + assert (Hne : (i, j, k) <> (5, 5, 5)).
      { intros H. injection H as -> -> ->. discriminate E. }
      apply andb_prop in Hq. destruct Hq as [Hq Hle1].
      apply andb_prop in Hq. destruct Hq as [Hnan Hle0].
      apply negb_true_iff in Hnan.
      split; [split; [intros H; congruence | intros H; now contradiction Hne]|].
      intros _. split; assumption.
Qed.

Lemma acos_argument_binary32_witness :
  (0 <= 5 < 11 /\ 0 <= 5 < 11 /\ 0 <= 6 < 11) /\
  (Binary32.is_nan (Binary32.theta_of_quotient (Binary32.coord 5)
                      (Binary32.coord 5) (Binary32.coord 6)) = true
   <-> (5, 5, 6) = (5, 5, 5)).
Proof.
  split; [lia|].
  apply (acos_argument_binary32 5 5 6); lia.
Defined.
